(** * Verification of the multi-device quantum job service

    A shallow embedding of [src/enhanced_quantum_service.py]:
    - [QuantumDeviceManager]   (the static device catalogue),
    - [AsyncQuantumJobManager] (the [quantum_jobs] table),
    - [EnhancedQuantumService] (dual-track generation, cache, fallback,
      placement of signature cards).

    Conventions of the embedding.
    - Python [dict]s read by key are [gmap string pyval]; the catalogue, whose
      iteration order is observable, is an association list in insertion order.
    - Python [float]s are modelled by exact rationals [Q].
    - Python exceptions are the [Raise] branch of [result]; a [try/except]
      is [try_except].
    - Everything the process obtains from outside (clock, random tokens,
      simulators, Braket devices, the interpreter's [hash]) is read from an
      [oracle], indexed by a logical query counter kept in the state. *)

From Stdlib Require Import ZArith QArith Qround Lia Lqa Ascii.
From stdpp Require Import gmap strings list fin_maps pretty sorting.

Local Open Scope Z_scope.

(** ** Python values, exceptions and results *)

Module Py.

Inductive pyval : Type :=
  | VNone
  | VBool (b : bool)
  | VInt (z : Z)
  | VFloat (q : Q)
  | VStr (s : string)
  | VStrList (l : list string).

(** The exceptions the modelled code can raise.  All of them are instances of
    Python's [Exception], so a handler [except Exception] catches each one. *)
Inductive exn : Type :=
  | KeyError (key : string)
  | IndexError
  | ValueError
  | TypeError
  | ZeroDivisionError
  | IntegrityError (msg : string)
  | Exception (msg : string).

Inductive result (A : Type) : Type :=
  | Ok (a : A)
  | Raise (e : exn).
Arguments Ok {A} a.
Arguments Raise {A} e.

(** [str(e)] *)
Definition exn_str (e : exn) : string :=
  match e with
  | KeyError k => "'" +:+ k +:+ "'"
  | IndexError => "list index out of range"
  | ValueError => "invalid literal for int()"
  | TypeError => "unsupported operand type"
  | ZeroDivisionError => "division by zero"
  | IntegrityError m => m
  | Exception m => m
  end.

Definition is_ok {A} (r : result A) : bool :=
  match r with Ok _ => true | Raise _ => false end.

(** Truthiness of a value, as used by [if v:] and [not v]. *)
Definition truthy (v : pyval) : bool :=
  match v with
  | VNone => false
  | VBool b => b
  | VInt z => negb (z =? 0)
  | VFloat q => negb (Qnum q =? 0)
  | VStr s => negb (bool_decide (s = ""))
  | VStrList l => negb (bool_decide (l = []))
  end.

(** [v == s] for a string [s]. *)
Definition str_equal (v : pyval) (s : string) : bool :=
  match v with
  | VStr s' => bool_decide (s' = s)
  | _ => false
  end.

(** [needle in haystack] on strings. *)
Fixpoint is_prefix (p s : string) : bool :=
  match p, s with
  | EmptyString, _ => true
  | String a p', String b s' => if Ascii.eqb a b then is_prefix p' s' else false
  | String _ _, EmptyString => false
  end.

Fixpoint contains (needle haystack : string) : bool :=
  is_prefix needle haystack ||
  match haystack with
  | EmptyString => false
  | String _ rest => contains needle rest
  end.

(** [int(s, 2)] on a bit string as Braket reports measurement keys. *)
Fixpoint bits_value (acc : Z) (s : string) : result Z :=
  match s with
  | EmptyString => Ok acc
  | String c rest =>
      if Ascii.eqb c "0" then bits_value (2 * acc) rest
      else if Ascii.eqb c "1" then bits_value (2 * acc + 1) rest
      else Raise ValueError
  end.

Definition int_base2 (s : string) : result Z :=
  match s with
  | EmptyString => Raise ValueError
  | _ => bits_value 0 s
  end.

(** [int(x)] on a float truncates towards zero. *)
Definition int_of_float (q : Q) : Z := Z.quot (Qnum q) (Zpos (Qden q)).


(** [min(a, b)] and [max(a, b)]: the first argument wins a tie. *)
Definition Qltb (a b : Q) : bool := (Qnum a * Zpos (Qden b) <? Qnum b * Zpos (Qden a)).
Definition py_min (a b : Q) : Q := if Qltb b a then b else a.
Definition py_max (a b : Q) : Q := if Qltb a b then b else a.

End Py.
Import Py.

(** ** QuantumDeviceManager *)

Module Devices.

(** One capability record is a Python dict. *)
Abbreviation device_info := (gmap string pyval).

(** The catalogue: device id to record, in insertion order. *)
Definition registry : Type := list (string * device_info).

Definition mk_device (name type arn region description : string)
    (advantages : list string) (typical_runtime : string) (max_qubits : Z)
    (supports_bell_states async_required : bool) : device_info :=
  <["name" := VStr name]> (<["type" := VStr type]> (<["arn" := VStr arn]>
  (<["region" := VStr region]> (<["description" := VStr description]>
  (<["advantages" := VStrList advantages]>
  (<["typical_runtime" := VStr typical_runtime]>
  (<["max_qubits" := VInt max_qubits]>
  (<["supports_bell_states" := VBool supports_bell_states]>
  (<["async_required" := VBool async_required]> ∅))))))))).

(** [QuantumDeviceManager.__init__] *)
Definition devices0 : registry :=
  [ ("local_simulator",
     mk_device "Local Simulator" "simulator" "local://simulator" "local"
       "Fast local quantum circuit simulator"
       ["Immediate results"; "No cost"; "Always available"]
       "< 1 second" 34 true false);
    ("aws_sv1",
     mk_device "AWS SV1 Simulator" "managed_simulator"
       "arn:aws:braket:::device/quantum-simulator/amazon/sv1" "us-east-1"
       "AWS managed state vector quantum simulator"
       ["High performance"; "Up to 34 qubits"; "Cloud scalability"]
       "1-5 seconds" 34 true true);
    ("ionq_forte",
     mk_device "IonQ Forte Enterprise" "qpu"
       "arn:aws:braket:us-east-1::device/qpu/ionq/Forte-Enterprise-1" "us-east-1"
       "IonQ trapped ion quantum processor"
       ["Real quantum hardware"; "High fidelity"; "All-to-all connectivity"]
       "5-30 minutes" 32 true true);
    ("iqm_garnet",
     mk_device "IQM Garnet" "qpu"
       "arn:aws:braket:eu-north-1::device/qpu/iqm/Emerald" "eu-north-1"
       "IQM superconducting quantum processor"
       ["European quantum hardware"; "Superconducting qubits"; "Fast gates"]
       "10-45 minutes" 20 true true);
    ("quera_aquila",
     mk_device "QuEra Aquila" "qpu"
       "arn:aws:braket:us-east-1::device/qpu/quera/Aquila" "us-east-1"
       "QuEra neutral atom quantum processor"
       ["Neutral atom technology"; "Programmable topology"; "Analog quantum simulation"]
       "15-60 minutes" 256 false true);
    ("rigetti_ankaa3",
     mk_device "Rigetti Ankaa-3" "qpu"
       "arn:aws:braket:us-west-1::device/qpu/rigetti/Ankaa-3" "us-west-1"
       "Rigetti superconducting quantum processor"
       ["Parametric gates"; "Fast execution"; "NISQ algorithms"]
       "5-20 minutes" 84 true true) ].

(** [self.devices.get(device_id)] *)
Fixpoint find_device (devices : registry) (device_id : string) : option device_info :=
  match devices with
  | [] => None
  | (k, d) :: rest => if bool_decide (k = device_id) then Some d else find_device rest device_id
  end.

(** [get_device_info]: the record, or the empty dict for an unknown id. *)
Definition get_device_info (devices : registry) (device_id : string) : device_info :=
  default ∅ (find_device devices device_id).

(** [QuantumDeviceManager.get_available_devices] returns the stored dict
    itself, not a copy: the caller holds an alias of the catalogue. *)
Definition get_available_devices (devices : registry) : registry := devices.

(** [get_device_by_type]: fresh dicts [{**device, 'id': device_id}]; a record
    without a ['type'] key makes the comprehension raise [KeyError]. *)
Fixpoint get_device_by_type (devices : registry) (device_type : string)
    : result (list device_info) :=
  match devices with
  | [] => Ok []
  | (device_id, device) :: rest =>
      match device !! "type" with
      | None => Raise (KeyError "type")
      | Some t =>
          match get_device_by_type rest device_type with
          | Raise e => Raise e
          | Ok tl =>
              if str_equal t device_type
              then Ok (<["id" := VStr device_id]> device :: tl)
              else Ok tl
          end
      end
  end.

(** [not device_info] *)
Definition dict_empty (d : device_info) : bool := bool_decide (dom d = ∅).

(** [d[key]] *)
Definition dict_get (d : device_info) (key : string) : result pyval :=
  match d !! key with
  | Some v => Ok v
  | None => Raise (KeyError key)
  end.

(** [d.get(key, dflt)] *)
Definition dict_get_default (d : device_info) (key : string) (dflt : pyval) : pyval :=
  default dflt (d !! key).

End Devices.
Import Devices.

(** ** AsyncQuantumJobManager: the [quantum_jobs] table *)

Module JobStore.

(** Values bound to, and read from, SQL columns. *)
Inductive sqlval : Type :=
  | SNull
  | SInt (z : Z)
  | SText (s : string).

(** One row of [quantum_jobs]; [status] is [TEXT NOT NULL] and is always
    written from a Python [str]. *)
Record job_row : Type := mk_row {
  id : Z;
  job_id : string;
  signature_id : sqlval;
  device_id : string;
  device_arn : string;
  user_name : string;
  user_message : string;
  status : string;
  created_at : sqlval;
  submitted_at : sqlval;
  completed_at : sqlval;
  result_data : sqlval;
  error_message : sqlval;
  estimated_completion : sqlval }.

(** The table, in rowid order, with the AUTOINCREMENT counter. *)
Record store : Type := mk_store {
  rows : list job_row;
  last_rowid : Z }.

Definition empty_store : store := mk_store [] 0.

Definition set_status (s : string) (r : job_row) : job_row :=
  mk_row (id r) (job_id r) (signature_id r) (device_id r) (device_arn r)
    (user_name r) (user_message r) s (created_at r) (submitted_at r)
    (completed_at r) (result_data r) (error_message r) (estimated_completion r).

(** The six columns [update_job_status] accepts as keyword arguments. *)
Definition updatable : list string :=
  ["submitted_at"; "completed_at"; "result_data"; "error_message";
   "estimated_completion"; "signature_id"].

(** [SET col = v] on one row, for an accepted column. *)
Definition assign (col : string) (v : sqlval) (r : job_row) : job_row :=
  if bool_decide (col = "submitted_at") then
    mk_row (id r) (job_id r) (signature_id r) (device_id r) (device_arn r)
      (user_name r) (user_message r) (status r) (created_at r) v
      (completed_at r) (result_data r) (error_message r) (estimated_completion r)
  else if bool_decide (col = "completed_at") then
    mk_row (id r) (job_id r) (signature_id r) (device_id r) (device_arn r)
      (user_name r) (user_message r) (status r) (created_at r) (submitted_at r)
      v (result_data r) (error_message r) (estimated_completion r)
  else if bool_decide (col = "result_data") then
    mk_row (id r) (job_id r) (signature_id r) (device_id r) (device_arn r)
      (user_name r) (user_message r) (status r) (created_at r) (submitted_at r)
      (completed_at r) v (error_message r) (estimated_completion r)
  else if bool_decide (col = "error_message") then
    mk_row (id r) (job_id r) (signature_id r) (device_id r) (device_arn r)
      (user_name r) (user_message r) (status r) (created_at r) (submitted_at r)
      (completed_at r) (result_data r) v (estimated_completion r)
  else if bool_decide (col = "estimated_completion") then
    mk_row (id r) (job_id r) (signature_id r) (device_id r) (device_arn r)
      (user_name r) (user_message r) (status r) (created_at r) (submitted_at r)
      (completed_at r) (result_data r) (error_message r) v
  else if bool_decide (col = "signature_id") then
    mk_row (id r) (job_id r) v (device_id r) (device_arn r)
      (user_name r) (user_message r) (status r) (created_at r) (submitted_at r)
      (completed_at r) (result_data r) (error_message r) (estimated_completion r)
  else r.


(** The loop over [kwargs.items()]: the clauses appended after
    ['status = ?'], with their bound values, in call order. *)
Definition set_clauses (kwargs : list (string * sqlval)) : list (string * sqlval) :=
  filter (λ kv, kv.1 ∈ updatable) kwargs.

(** The [SET ...] part of the statement applied to one row. *)
Definition apply_set (s : string) (clauses : list (string * sqlval)) (r : job_row) : job_row :=
  fold_left (λ acc kv, assign kv.1 kv.2 acc) clauses (set_status s r).

(** [UPDATE quantum_jobs SET ... WHERE job_id = ?] *)
Definition sql_update (s : string) (clauses : list (string * sqlval))
    (jid : string) (st : store) : store :=
  mk_store
    (map (λ r, if bool_decide (job_id r = jid) then apply_set s clauses r else r) (rows st))
    (last_rowid st).

(** [update_job_status(job_id, status, **kwargs)]: the statement carries no
    condition on the row's current status. *)
Definition update_job_status (st : store) (jid : string) (s : string)
    (kwargs : list (string * sqlval)) : store :=
  sql_update s (set_clauses kwargs) jid st.

(** [SELECT * FROM quantum_jobs WHERE job_id = ?], [fetchone()] *)
Definition get_job (st : store) (jid : string) : option job_row :=
  List.find (λ r, bool_decide (job_id r = jid)) (rows st).

(** [create_job]: [now] is [int(time.time())], [token] is
    [secrets.token_hex(8)], [ts] is the database's CURRENT_TIMESTAMP.  The
    UNIQUE constraint on [job_id] makes the INSERT raise on a duplicate. *)
Definition new_job_id (now : Z) (token : string) : string :=
  "qjob_" +:+ pretty now +:+ "_" +:+ token.

Definition create_job (st : store) (now : Z) (token ts : string)
    (device_id device_arn user_name user_message : string) : result string * store :=
  let jid := new_job_id now token in
  match get_job st jid with
  | Some _ => (Raise (IntegrityError "UNIQUE constraint failed: quantum_jobs.job_id"), st)
  | None =>
      (Ok jid,
       mk_store
         (rows st ++ [mk_row (last_rowid st + 1) jid SNull device_id device_arn
                        user_name user_message "created" (SText ts)
                        SNull SNull SNull SNull SNull])
         (last_rowid st + 1))
  end.

(** [clear_all_jobs]: [DELETE FROM quantum_jobs]; returns the count removed. *)
Definition clear_all_jobs (st : store) : Z * store :=
  (Z.of_nat (length (rows st)), mk_store [] (last_rowid st)).

Definition is_terminal (s : string) : bool :=
  bool_decide (s = "completed") || bool_decide (s = "failed").

Definition is_active (s : string) : bool :=
  bool_decide (s ∈ ["created"; "submitted"; "running"]).

(** SQLite's order on values: NULL first, then numbers, then text compared
    bytewise. *)
Definition sql_leb (a b : sqlval) : bool :=
  match a, b with
  | SNull, _ => true
  | _, SNull => false
  | SInt x, SInt y => x <=? y
  | SInt _, SText _ => true
  | SText _, SInt _ => false
  | SText x, SText y => String.leb x y
  end.

(** [ORDER BY created_at ASC] and [ORDER BY created_at DESC]. *)
Definition created_le (r1 r2 : job_row) : Prop :=
  sql_leb (created_at r1) (created_at r2) = true.
Definition created_ge (r1 r2 : job_row) : Prop := created_le r2 r1.

#[global] Instance created_le_dec : RelDecision created_le.
Proof. intros r1 r2. unfold created_le. apply _. Defined.
#[global] Instance created_ge_dec : RelDecision created_ge.
Proof. intros r1 r2. unfold created_ge. apply _. Defined.

(** [get_pending_jobs]: the rows whose status is active, ordered by
    [created_at]. *)
Definition get_pending_jobs (st : store) : list job_row :=
  merge_sort created_le (List.filter (λ r, is_active (status r)) (rows st)).

(** [get_recent_jobs(limit)]: newest first; a negative [LIMIT] means no
    limit. *)
Definition get_recent_jobs (st : store) (limit : Z) : list job_row :=
  let sorted := merge_sort created_ge (rows st) in
  if limit <? 0 then sorted else take (Z.to_nat limit) sorted.

(** The frame of a row: the columns no update statement names. *)
Definition same_identity (r r' : job_row) : Prop :=
  id r' = id r ∧ job_id r' = job_id r ∧ device_id r' = device_id r ∧
  device_arn r' = device_arn r ∧ user_name r' = user_name r ∧
  user_message r' = user_message r ∧ created_at r' = created_at r.

End JobStore.
Import JobStore.

(** ** Placement of signature cards on the wall *)

Module Placement.

Local Open Scope Q_scope.

(** The columns of a stored signature that the placement reads. *)
Record signature : Type := mk_signature {
  position_x : Q;
  position_y : Q }.

(** Footprint of a card in percent of the container, with the breathing
    buffers, and the spacing between cards. *)
Record layout : Type := mk_layout {
  effective_width_pct : Q;
  effective_height_pct : Q;
  spacing_pct : Q }.

Definition estimated_viewport_width : Q := 1400.
Definition estimated_viewport_height : Q := 900.
Definition container_width : Q := estimated_viewport_width.
Definition container_height : Q :=
  py_max 600 (inject_Z (int_of_float (estimated_viewport_height * 0.8))).

(** The five density bands: card width, card height, minimal spacing (px). *)
Definition card_dimensions (num_signatures : Z) : Q * Q * Q :=
  if (num_signatures <=? 4)%Z then
    (py_max 280 (py_min 400 (container_width / 2.8)),
     py_max 180 (py_min 240 (container_height / 2.8)), 30)
  else if (num_signatures <=? 6)%Z then
    (py_max 250 (py_min 350 (container_width / 3.2)),
     py_max 160 (py_min 220 (container_height / 2.6)), 25)
  else if (num_signatures <=? 9)%Z then
    (py_max 220 (py_min 300 (container_width / 3.8)),
     py_max 140 (py_min 190 (container_height / 3.2)), 20)
  else if (num_signatures <=? 12)%Z then
    (py_max 200 (py_min 260 (container_width / 4.5)),
     py_max 130 (py_min 170 (container_height / 3.8)), 15)
  else
    (py_max 180 (py_min 220 (container_width / 5.5)),
     py_max 120 (py_min 150 (container_height / 4.5)), 12).

Definition scale_buffer : Q := 1.02.
Definition pseudo_element_px : Q := 6.

Definition layout_for (num_signatures : Z) : layout :=
  let '(card_width, card_height, min_spacing) := card_dimensions num_signatures in
  let card_width_pct := (card_width / container_width) * 100 in
  let card_height_pct := (card_height / container_height) * 100 in
  let pseudo_element_width_pct := (pseudo_element_px / container_width) * 100 in
  let pseudo_element_height_pct := (pseudo_element_px / container_height) * 100 in
  mk_layout
    ((card_width_pct * scale_buffer) + pseudo_element_width_pct)
    ((card_height_pct * scale_buffer) + pseudo_element_height_pct)
    ((min_spacing / container_width) * 100).

(** A rectangle of the canvas: x range and y range. *)
Record region : Type := mk_region {
  x_lo : Q; x_hi : Q; y_lo : Q; y_hi : Q }.

Definition zones : list region :=
  [ mk_region 30 70 30 70; mk_region 20 80 20 80; mk_region 15 85 15 85 ].

Definition device_regions : list (string * region) :=
  [ ("local_simulator", mk_region 20 50 20 50);
    ("aws_sv1", mk_region 50 80 20 50);
    ("ionq_forte", mk_region 20 50 50 80);
    ("iqm_garnet", mk_region 50 80 50 80);
    ("quera_aquila", mk_region 30 70 30 70);
    ("rigetti_ankaa", mk_region 25 75 25 75) ].

Fixpoint lookup_region (l : list (string * region)) (device_id : string) : option region :=
  match l with
  | [] => None
  | (k, r) :: rest => if bool_decide (k = device_id) then Some r else lookup_region rest device_id
  end.

(** [device_regions.get(device_id, {...(10, 90)...})] *)
Definition device_region (device_id : string) : region :=
  default (mk_region 10 90 10 90) (lookup_region device_regions device_id).

(** The zone tried at a given attempt. *)
Definition zone_of (attempt : nat) : region :=
  let i := if (attempt <? 50)%nat then 0%nat
           else if (attempt <? 100)%nat then 1%nat else 2%nat in
  nth i zones (mk_region 15 85 15 85).

Definition Qabs_py (x : Q) : Q := if Qltb x 0 then - x else x.

(** The final clamp applied to every returned coordinate. *)
Definition clamp (extent v : Q) : Q := py_max 12 (py_min (88 - extent) v).

(** One existing card blocks the candidate when both distances are below
    footprint plus spacing. *)
Definition collides (lay : layout) (x y : Q) (existing : signature) : bool :=
  let dx := Qabs_py (x - position_x existing) in
  let dy := Qabs_py (y - position_y existing) in
  Qltb dx (effective_width_pct lay + spacing_pct lay) &&
  Qltb dy (effective_height_pct lay + spacing_pct lay).

Definition collision_found (lay : layout) (x y : Q) (existing : list signature) : bool :=
  existsb (collides lay x y) existing.

Section Generator.

(** [random.seed(n)] followed by calls of [random.random()]: the [k]-th
    draw after seeding with [n]. *)
Variable prng : Z → nat → Q.
(** [math.cos] and [math.sin]. *)
Variables cos sin : Q → Q.

(** [random.uniform(a, b)] is [a + (b - a) * random()]. *)
Definition uniform (seed : Z) (draw : nat) (a b : Q) : Q :=
  a + (b - a) * prng seed draw.

(** The body of one iteration up to the candidate: [None] stands for
    [continue]; the second component counts the draws consumed so far. *)
Definition propose (lay : layout) (reg : region) (seed : Z) (attempt draws : nat)
    : option (Q * Q) * nat :=
  let zone := zone_of attempt in
  let effective_x_min := py_max (x_lo zone) (x_lo reg) in
  let effective_x_max := py_min (x_hi zone) (x_hi reg) in
  let effective_y_min := py_max (y_lo zone) (y_lo reg) in
  let effective_y_max := py_min (y_hi zone) (y_hi reg) in
  if negb (Qltb effective_x_min effective_x_max) || negb (Qltb effective_y_min effective_y_max)
  then (None, draws)
  else if (attempt <? 75)%nat then
    let grid_size := 8%nat in
    let grid_x := (attempt mod grid_size)%nat in
    let grid_y := (attempt / grid_size)%nat in
    if (grid_x <? grid_size)%nat && (grid_y <? grid_size)%nat then
      let x_range := effective_x_max - effective_x_min - effective_width_pct lay in
      let y_range := effective_y_max - effective_y_min - effective_height_pct lay in
      if Qltb 0 x_range && Qltb 0 y_range then
        let step := inject_Z (Z.of_nat (Nat.max 1 (grid_size - 1))) in
        let candidate_x := effective_x_min + (inject_Z (Z.of_nat grid_x) / step) * x_range in
        let candidate_y := effective_y_min + (inject_Z (Z.of_nat grid_y) / step) * y_range in
        (Some (candidate_x + uniform seed draws (-2) 2,
               candidate_y + uniform seed (S draws) (-2) 2), S (S draws))
      else (None, draws)
    else (None, draws)
  else
    if Qltb (effective_width_pct lay) (effective_x_max - effective_x_min) &&
       Qltb (effective_height_pct lay) (effective_y_max - effective_y_min)
    then
      (Some (uniform seed draws effective_x_min (effective_x_max - effective_width_pct lay),
             uniform seed (S draws) effective_y_min (effective_y_max - effective_height_pct lay)),
       S (S draws))
    else (None, draws).

(** The loop [for attempt in range(max_attempts)]: the first clamped
    candidate that collides with no existing card, if any. *)
Fixpoint search (lay : layout) (reg : region) (seed : Z)
    (existing : list signature) (attempts : list nat) (draws : nat) : option (Q * Q) :=
  match attempts with
  | [] => None
  | attempt :: rest =>
      match propose lay reg seed attempt draws with
      | (None, draws') => search lay reg seed existing rest draws'
      | (Some (cx, cy), draws') =>
          let candidate_x := clamp (effective_width_pct lay) cx in
          let candidate_y := clamp (effective_height_pct lay) cy in
          if collision_found lay candidate_x candidate_y existing
          then search lay reg seed existing rest draws'
          else Some (candidate_x, candidate_y)
      end
  end.

Definition max_attempts : nat := 150.

(** [_generate_center_spiral_position] *)
Definition _generate_center_spiral_position (signature_count : nat)
    (effective_width_pct effective_height_pct : Q) : Q * Q :=
  let count := inject_Z (Z.of_nat signature_count) in
  let angle := count * 0.8 in
  let radius := 8 + (count * 2.5) in
  let spiral_x := 50 + radius * cos angle in
  let spiral_y := 50 + radius * sin angle in
  (clamp effective_width_pct spiral_x, clamp effective_height_pct spiral_y).

(** [_generate_collision_free_position]; [existing_signatures] is the
    snapshot returned by [database.get_all_signatures()]. *)
Definition _generate_collision_free_position (existing_signatures : list signature)
    (device_id : string) (quantum_number : Z) : Q * Q :=
  let num_signatures := (Z.of_nat (length existing_signatures) + 1)%Z in
  let lay := layout_for num_signatures in
  match search lay (device_region device_id) quantum_number existing_signatures
          (seq 0 max_attempts) 0 with
  | Some p => p
  | None =>
      _generate_center_spiral_position (length existing_signatures)
        (effective_width_pct lay) (effective_height_pct lay)
  end.

(** Entries placed one after the other: each new card is stored with the
    position it was given; [get_all_signatures] lists newest first. *)
Fixpoint place_all (existing : list signature) (entries : list (string * Z))
    : list signature :=
  match entries with
  | [] => existing
  | (device_id, quantum_number) :: rest =>
      let '(x, y) := _generate_collision_free_position existing device_id quantum_number in
      place_all (mk_signature x y :: existing) rest
  end.

End Generator.

(** Two stored cards overlap, under a layout, when the collision test of the
    search would reject one placed at the other's position. *)
Definition overlapping (lay : layout) (a b : signature) : bool :=
  collides lay (position_x a) (position_y a) b.

(** The safe interior band of the canvas. *)
Definition in_band (p : Q * Q) : Prop :=
  12 <= p.1 /\ p.1 <= 88 /\ 12 <= p.2 /\ p.2 <= 88.

(** Truncated Taylor polynomials, used as concrete stand-ins for [math.cos]
    and [math.sin] on the small angles of the first spiral steps. *)
Definition cos_taylor (x : Q) : Q :=
  1 - x^2 / 2 + x^4 / 24 - x^6 / 720 + x^8 / 40320.
Definition sin_taylor (x : Q) : Q :=
  x - x^3 / 6 + x^5 / 120 - x^7 / 5040 + x^9 / 362880.

End Placement.
Import Placement.

(** ** EnhancedQuantumService *)

Module Service.

(** Braket circuits, as the list of instructions appended to them. *)
Inductive gate : Type :=
  | GH (q : nat)
  | GCNot (control target : nat)
  | GRy (q : nat) (angle : Q)
  | GMeasure (q : nat).
Definition circuit : Type := list gate.

(** [result.measurement_counts]: outcome to number of shots, in the order
    the outcomes were first seen. *)
Definition counts : Type := list (string * Z).

(** A task submitted to a Braket device.  The polling loop of the caller
    ([while task.state() not in ...: ... sleep(5)]) either sees a final state
    within the hour or raises its timeout; [task.result()] then gives the
    counts or raises. *)
Record braket_task : Type := mk_task {
  poll_times_out : bool;
  task_result : result counts }.

(** The dict stored, JSON-encoded, in [result_data]. *)
Record job_result : Type := mk_job_result {
  r_quantum_number : Z;
  r_entanglement_data : list Q;
  r_device_name : pyval;
  r_device_type : pyval;
  r_processing_time_ms : option Q }.

(** What the process reads from outside.  The stateful sources take the
    logical time of the query; the others are pure functions of the
    interpreter and its libraries. *)
Record oracle : Type := mk_oracle {
  time_time : nat → Q;                 (* time.time() *)
  datetime_now : nat → Q;              (* datetime.now(), as epoch seconds *)
  token_hex : nat → string;            (* secrets.token_hex(8) *)
  current_timestamp : nat → string;    (* SQLite's CURRENT_TIMESTAMP *)
  random_index : nat → nat;            (* the index random.choice picks *)
  local_run : nat → circuit → Z → result counts;
  aws_run : nat → string → circuit → Z → result braket_task;
  ahs_run : nat → string → result counts;
  py_hash : string → Z;                (* hash() *)
  md5 : string → Z;                    (* hashlib.md5(...).digest(), as a number *)
  circuit_str : circuit → string;      (* str(circuit) *)
  str_float : Q → string;              (* str(x) of a float *)
  isoformat : Q → string;              (* datetime.isoformat() *)
  format_1f : Q → string;              (* f"{x:.1f}" *)
  json_dumps : job_result → string }.

(** The dict returned by [process_quantum_signature].  [device_result] is
    present in the inline branch only, [info_type] and
    [info_estimated_completion] in the background branch only. *)
Inductive reply : Type :=
  | Failure (error : string)
  | Success (quantum_number : Z) (entanglement_data : list Q)
      (local_job_id device_job_id : string)
      (info_name : pyval) (info_type : option pyval)
      (info_estimated_completion : option string)
      (local_result : job_result) (device_result : option job_result).

(** A coroutine handed to [asyncio.create_task]:
    [_process_quantum_job_for_signature(job_id, device_id, name, response)]. *)
Record task : Type := mk_bg {
  bg_job_id : string;
  bg_device_id : string;
  bg_name : string;
  bg_response : string }.

(** The mutable state of the service object and of the event loop. *)
Record service : Type := mk_service {
  device_manager : registry;
  job_manager : store;
  _circuit_cache : gmap Z Z;
  _aws_devices : gset string;
  _aws_session : bool;
  tick : nat;
  pending_tasks : list task }.

Definition with_devices (d : registry) (s : service) : service :=
  mk_service d (job_manager s) (_circuit_cache s) (_aws_devices s) (_aws_session s)
    (tick s) (pending_tasks s).
Definition with_jobs (j : store) (s : service) : service :=
  mk_service (device_manager s) j (_circuit_cache s) (_aws_devices s) (_aws_session s)
    (tick s) (pending_tasks s).
Definition with_cache (c : gmap Z Z) (s : service) : service :=
  mk_service (device_manager s) (job_manager s) c (_aws_devices s) (_aws_session s)
    (tick s) (pending_tasks s).
Definition with_tick (n : nat) (s : service) : service :=
  mk_service (device_manager s) (job_manager s) (_circuit_cache s) (_aws_devices s)
    (_aws_session s) n (pending_tasks s).
Definition with_tasks (l : list task) (s : service) : service :=
  mk_service (device_manager s) (job_manager s) (_circuit_cache s) (_aws_devices s)
    (_aws_session s) (tick s) l.

(** *** The state-and-exception monad of the service methods

    A raised exception keeps the mutations made before it. *)
Definition M (A : Type) : Type := service → result A * service.

Definition ret {A} (a : A) : M A := λ s, (Ok a, s).
Definition raise {A} (e : exn) : M A := λ s, (Raise e, s).
Definition bind {A B} (m : M A) (f : A → M B) : M B :=
  λ s, match m s with
       | (Ok a, s') => f a s'
       | (Raise e, s') => (Raise e, s')
       end.
Definition try_except {A} (body : M A) (handler : exn → M A) : M A :=
  λ s, match body s with
       | (Ok a, s') => (Ok a, s')
       | (Raise e, s') => handler e s'
       end.
Definition lift {A} (r : result A) : M A := λ s, (r, s).
Definition get_state : M service := λ s, (Ok s, s).
Definition modify (f : service → service) : M unit := λ s, (Ok tt, f s).
(** One query of a stateful external source. *)
Definition query {A} (f : nat → A) : M A :=
  λ s, (Ok (f (tick s)), with_tick (S (tick s)) s).

Declare Scope service_scope.
Delimit Scope service_scope with svc.
Notation "'let*' x ':=' m 'in' k" := (bind m (λ x, k))
  (at level 10, x name, m at level 100, k at level 200) : service_scope.
Notation "'do' m 'then' k" := (bind m (λ _, k))
  (at level 10, m at level 100, k at level 200) : service_scope.
Local Open Scope service_scope.

Definition as_int (v : pyval) : result Z :=
  match v with
  | VInt z => Ok z
  | VBool b => Ok (if b then 1 else 0)
  | _ => Raise TypeError
  end.

Definition as_str (v : pyval) : result string :=
  match v with
  | VStr s => Ok s
  | _ => Raise TypeError
  end.

Definition result_bind {A B} (r : result A) (f : A → result B) : result B :=
  match r with Ok a => f a | Raise e => Raise e end.

(** [d[key]] used as a string / as an int. *)
Definition str_field (d : device_info) (key : string) : result string :=
  result_bind (dict_get d key) as_str.
Definition int_field (d : device_info) (key : string) : result Z :=
  result_bind (dict_get d key) as_int.

(** *** Pure helpers on measurement results *)

(** [int(list(measurement.keys())[0], 2)] *)
Definition first_outcome (m : counts) : result Z :=
  match m with
  | [] => Raise IndexError
  | (k, _) :: _ => int_base2 k
  end.

(** [counts.get(state, 0)] *)
Fixpoint counts_get (m : counts) (state : string) : Z :=
  match m with
  | [] => 0
  | (k, n) :: rest => if bool_decide (k = state) then n else counts_get rest state
  end.

Definition total_shots (m : counts) : Z := fold_right Z.add 0 (m.*2).

(** The loop over ['00', '01', '10', '11']; the first division already
    raises when no shot was counted. *)
Definition probabilities (m : counts) : result (list Q) :=
  let total := total_shots m in
  if total =? 0 then Raise ZeroDivisionError
  else Ok (map (λ state, (inject_Z (counts_get m state) / inject_Z total)%Q)
             ["00"; "01"; "10"; "11"]).

Definition ideal_bell : list Q := [0.5; 0; 0; 0.5]%Q.

(** [max(counts.items(), key=lambda kv: kv[1])[0]]: the first maximum. *)
Fixpoint top_config (best : string * Z) (m : counts) : string :=
  match m with
  | [] => best.1
  | kv :: rest => if best.2 <? kv.2 then top_config kv rest else top_config best rest
  end.

(** [_spin_config_to_int]: ['r'] is 1, every other site state is 0. *)
Fixpoint spin_bits (s : string) : string :=
  match s with
  | EmptyString => EmptyString
  | String c rest => String (if Ascii.eqb c "r" then "1" else "0")%char (spin_bits rest)
  end.
Definition _spin_config_to_int (spin_config : string) : result Z :=
  let bitstr := spin_bits spin_config in
  match bitstr with
  | EmptyString => Ok 0
  | _ => int_base2 bitstr
  end.

(** [_extract_counts_to_int], second component. *)
Definition _extract_counts_to_int (m : counts) : result Z :=
  match m with
  | [] => Ok 0
  | kv :: rest => _spin_config_to_int (top_config kv rest)
  end.

(** [s[:n]] for an int [n], negative [n] counting from the end. *)
Definition slice_to (n : Z) (s : string) : list ascii :=
  let l := String.list_ascii_of_string s in
  if n <? 0 then take (Z.to_nat (Z.of_nat (length l) + n)) l
  else take (Z.to_nat n) l.

(** [range(a, b)] on ints. *)
Definition range (a b : Z) : list nat := seq (Z.to_nat a) (Z.to_nat b - Z.to_nat a).

(** The circuit built by [_generate_quantum_random_number]. *)
Definition build_circuit (device_id seed_text : string) (num_qubits : Z) : circuit :=
  map GH (range 0 num_qubits) ++
  map (λ i, GCNot i (i + 1)) (range 0 (num_qubits - 1)) ++
  (if contains "ionq" device_id then
     flat_map (λ i, map (λ j, GCNot i j) (range (Z.of_nat i + 1) (Z.min num_qubits 3)))
       (range 0 (Z.min num_qubits 3))
   else []) ++
  imap (λ i char, GRy i ((inject_Z (Z.of_nat (nat_of_ascii char)) / 128) * 3.14159)%Q)
    (slice_to num_qubits seed_text) ++
  map GMeasure (range 0 num_qubits).

Definition bell_circuit : circuit := [GH 0; GCNot 0 1; GMeasure 0; GMeasure 1].

(** [int(circuit_hash[:8], 16)]: the top 32 bits of the 128-bit digest. *)
Definition digest_prefix (digest : Z) : Z := Z.shiftr (digest mod 2 ^ 128) 96.

Section Methods.

Variable O : oracle.

(** [random.choice(options)] *)
Definition random_choice (options : list bool) : M bool :=
  let* i := query (random_index O) in
  ret (nth (i mod length options)%nat options true).

(** [job_manager.create_job(...)] *)
Definition create_job_m (device_id device_arn user_name user_message : string) : M string :=
  let* now := query (time_time O) in
  let* token := query (token_hex O) in
  let* ts := query (current_timestamp O) in
  λ s, let '(r, j) := create_job (job_manager s) (int_of_float now) token ts
                        device_id device_arn user_name user_message in
       (r, with_jobs j s).

(** [job_manager.update_job_status(...)] *)
Definition update_job_status_m (jid status : string) (kwargs : list (string * sqlval))
    : M unit :=
  modify (λ s, with_jobs (update_job_status (job_manager s) jid status kwargs) s).

(** [_check_device_availability]: the pair ([available], [reason]). *)
Definition _check_device_availability (device_id : string) : M (bool * string) :=
  let* s := get_state in
  let device_info := get_device_info (device_manager s) device_id in
  if bool_decide (device_id = "local_simulator") then
    ret (true, "Local simulator always available")
  else if negb (_aws_session s) || negb (bool_decide (device_id ∈ _aws_devices s)) then
    ret (false, "AWS session not initialized or device not found")
  else
    try_except
      (let* ty := lift (dict_get device_info "type") in
       if str_equal ty "simulator" || str_equal ty "managed_simulator" then
         ret (true, "Simulator device")
       else
         let* ionq := random_choice [true; true; true; false] in
         let* iqm := random_choice [true; true; false] in
         let* quera := random_choice [true; false] in
         let* rigetti := random_choice [true; true; true; false] in
         let is_available :=
           if bool_decide (device_id = "ionq_forte") then ionq
           else if bool_decide (device_id = "iqm_garnet") then iqm
           else if bool_decide (device_id = "quera_aquila") then quera
           else if bool_decide (device_id = "rigetti_ankaa") then rigetti
           else true in
         if is_available then ret (true, "Device online and accepting jobs")
         else ret (false, "Device offline or maintenance mode"))
      (λ e, ret (false, "Availability check failed: " +:+ exn_str e)).

(** The three-way choice of a device made, in the same words, by
    [_execute_on_device] and [_execute_bell_state_on_device], up to the
    measurement counts. *)
Definition run_on_device (timeout_msg : string) (c : circuit) (device_id : string)
    (shots : Z) : M counts :=
  let* s := get_state in
  let device_info := get_device_info (device_manager s) device_id in
  if bool_decide (device_id = "local_simulator") then
    let* r := query (λ t, local_run O t c shots) in lift r
  else if bool_decide (device_id ∈ _aws_devices s) && _aws_session s then
    let* device_status := _check_device_availability device_id in
    let* aws_device :=
      (if negb device_status.1 then
         if bool_decide ("aws_sv1" ∈ _aws_devices s) then ret "aws_sv1"
         else raise (Exception ("Device " +:+ device_id +:+
                                " unavailable and no fallback available"))
       else ret device_id) in
    let* submitted := query (λ t, aws_run O t aws_device c shots) in
    let* task := lift submitted in
    let* async_required := lift (dict_get device_info "async_required") in
    do (if truthy async_required && poll_times_out task
        then raise (Exception timeout_msg) else ret tt) then
    lift (task_result task)
  else
    let* r := query (λ t, local_run O t c shots) in lift r.

(** [_execute_on_device]: every exception of the body is caught and
    replaced by a number derived from the digest of the circuit text. *)
Definition _execute_on_device (c : circuit) (device_id : string) (shots : Z) : M Z :=
  try_except
    (let* measurement := run_on_device "Task timeout after 3600 seconds" c device_id shots in
     lift (first_outcome measurement))
    (λ e, ret (digest_prefix (md5 O (circuit_str O c)) mod 1000)).

(** [_execute_bell_state_on_device] *)
Definition _execute_bell_state_on_device (c : circuit) (device_id : string) (shots : Z)
    : M (list Q) :=
  try_except
    (let* m := run_on_device "Bell state task timeout after 3600 seconds" c device_id shots in
     lift (probabilities m))
    (λ e, ret ideal_bell).

(** [_ahs_from_seed]: the remote part (program, discretisation, run, wait,
    counts) is one oracle query. *)
Definition _ahs_from_seed (device_id seed_text : string) : M Z :=
  let seed_text := device_id +:+ "_" +:+ seed_text in
  let* r := query (λ t, ahs_run O t seed_text) in
  let* m := lift r in
  lift (_extract_counts_to_int m).

(** The fallback of [_generate_quantum_random_number]:
    [hash(seed_text + str(time.time())) % 1000]. *)
Definition hash_fallback (seed_text : string) : M Z :=
  let* t := query (time_time O) in
  ret (py_hash O (seed_text +:+ str_float O t) mod 1000).

Definition cache_store (key value : Z) : M unit :=
  modify (λ s, with_cache (<[key := value]> (_circuit_cache s)) s).

(** [_generate_quantum_random_number] *)
Definition _generate_quantum_random_number (device_id seed_text : string) : M Z :=
  let cache_key := md5 O (device_id +:+ "_" +:+ seed_text) in
  let* s := get_state in
  match _circuit_cache s !! cache_key with
  | Some base_result =>
      let* t := query (time_time O) in
      ret ((base_result + int_of_float t) mod 1000)
  | None =>
      if contains "quera" device_id then
        try_except
          (let* quantum_number := _ahs_from_seed device_id seed_text in
           do cache_store cache_key quantum_number then
           ret quantum_number)
          (λ e, hash_fallback seed_text)
      else
        let device_info := get_device_info (device_manager s) device_id in
        let* max_qubits := lift (int_field device_info "max_qubits") in
        let num_qubits := Z.min (4 + py_hash O seed_text mod 4) max_qubits in
        let c := build_circuit device_id seed_text num_qubits in
        try_except
          (let* quantum_number := _execute_on_device c device_id 10 in
           do cache_store cache_key quantum_number then
           ret quantum_number)
          (λ e, hash_fallback seed_text)
  end.

(** [_create_bell_state_circuit] *)
Definition _create_bell_state_circuit (device_id : string) : M (list Q) :=
  let* s := get_state in
  let device_info := get_device_info (device_manager s) device_id in
  if negb (truthy (dict_get_default device_info "supports_bell_states" (VBool true))) then
    ret ideal_bell
  else
    try_except
      (let* ty := lift (dict_get device_info "type") in
       let shots := if str_equal ty "simulator" then 200 else 1000 in
       _execute_bell_state_on_device bell_circuit device_id shots)
      (λ e, ret ideal_bell).

(** [_estimate_completion_time] *)
Definition _estimate_completion_time (device_info : device_info) : M string :=
  let* base_time := query (datetime_now O) in
  let* ty := lift (dict_get device_info "type") in
  let* minutes :=
    (if str_equal ty "simulator" then ret 0
     else if str_equal ty "managed_simulator" then ret 1
     else
       let* arn := lift (str_field device_info "arn") in
       ret (if contains "ionq" arn then 15
            else if contains "iqm" arn then 25
            else if contains "quera" arn then 35
            else if contains "rigetti" arn then 10
            else 20)) in
  ret (isoformat O (base_time + inject_Z (minutes * 60))%Q).

(** [_simulate_quantum_processing]; the simulated delays ([asyncio.sleep])
    only let time pass. *)
Definition _simulate_quantum_processing (jid : string) (device_info : device_info) : M unit :=
  do update_job_status_m jid "running" [] then
  let* ty := lift (dict_get device_info "type") in
  if str_equal ty "managed_simulator" then ret tt
  else if str_equal ty "qpu" then
    let* arn := lift (str_field device_info "arn") in ret tt
  else ret tt.

(** [_update_signature_with_device_results] writes to the signatures
    database only and catches every exception it meets. *)
Definition _update_signature_with_device_results (device_job_id : string)
    (quantum_number : Z) (entanglement_data : list Q) : M unit := ret tt.

(** [_process_quantum_job_for_signature]: the body of the background task. *)
Definition _process_quantum_job_for_signature (jid device_id name response : string)
    : M unit :=
  try_except
    (let* s := get_state in
     let device_info := get_device_info (device_manager s) device_id in
     let* submitted := query (datetime_now O) in
     let* estimate := _estimate_completion_time device_info in
     do update_job_status_m jid "submitted"
          [("submitted_at", SText (isoformat O submitted));
           ("estimated_completion", SText estimate)] then
     do _simulate_quantum_processing jid device_info then
     let* t := query (time_time O) in
     let seed := name +:+ ":" +:+ response +:+ ":" +:+ str_float O t in
     let* quantum_number := _generate_quantum_random_number device_id seed in
     let* entanglement_data := _create_bell_state_circuit device_id in
     let* device_name := lift (dict_get device_info "name") in
     let* device_type := lift (dict_get device_info "type") in
     let result := mk_job_result quantum_number entanglement_data
                     device_name device_type None in
     let* completed := query (datetime_now O) in
     do update_job_status_m jid "completed"
          [("completed_at", SText (isoformat O completed));
           ("result_data", SText (json_dumps O result))] then
     _update_signature_with_device_results jid quantum_number entanglement_data)
    (λ e,
     let* failed := query (datetime_now O) in
     update_job_status_m jid "failed"
       [("completed_at", SText (isoformat O failed));
        ("error_message", SText (exn_str e))]).

(** The event loop runs a created task. *)
Definition run_task (t : task) : M unit :=
  _process_quantum_job_for_signature (bg_job_id t) (bg_device_id t) (bg_name t)
    (bg_response t).

(** [asyncio.create_task(...)]: the coroutine is queued, not run. *)
Definition create_task (t : task) : M unit :=
  modify (λ s, with_tasks (pending_tasks s ++ [t]) s).

(** [process_quantum_signature]: the main entry point. *)
Definition process_quantum_signature (name response quantum_device : string)
    : M reply :=
  try_except
    (let* s := get_state in
     let device_info := get_device_info (device_manager s) quantum_device in
     if dict_empty device_info then
       ret (Failure ("Unknown quantum device: " +:+ quantum_device))
     else
       let* local_job_id :=
         create_job_m "local_simulator" "local://simulator" name (response +:+ "_local") in
       let* arn := lift (str_field device_info "arn") in
       let* device_job_id :=
         create_job_m quantum_device arn name (response +:+ "_device") in
       let* start_time := query (datetime_now O) in
       do update_job_status_m local_job_id "running" [] then
       let* t := query (time_time O) in
       let seed := name +:+ ":" +:+ response +:+ ":local:" +:+ str_float O t in
       let* local_quantum_number := _generate_quantum_random_number "local_simulator" seed in
       let* local_entanglement_data := _create_bell_state_circuit "local_simulator" in
       let* end_time := query (datetime_now O) in
       let duration_ms := ((end_time - start_time) * 1000)%Q in
       let local_result :=
         mk_job_result local_quantum_number local_entanglement_data
           (VStr "Local Simulator") (VStr "simulator") (Some duration_ms) in
       do update_job_status_m local_job_id "completed"
            [("completed_at", SText (isoformat O end_time));
             ("result_data", SText (json_dumps O local_result))] then
       if truthy (dict_get_default device_info "async_required" (VBool false)) then
         do create_task (mk_bg device_job_id quantum_device name response) then
         let* info_name := lift (dict_get device_info "name") in
         let* info_type := lift (dict_get device_info "type") in
         let* estimate := _estimate_completion_time device_info in
         ret (Success local_quantum_number local_entanglement_data
                local_job_id device_job_id info_name (Some info_type) (Some estimate)
                local_result None)
       else
         let* start_time := query (datetime_now O) in
         do update_job_status_m device_job_id "running" [] then
         let* t := query (time_time O) in
         let device_seed := name +:+ ":" +:+ response +:+ ":device:" +:+ str_float O t in
         let* device_quantum_number :=
           _generate_quantum_random_number quantum_device device_seed in
         let* device_entanglement_data := _create_bell_state_circuit quantum_device in
         let* end_time := query (datetime_now O) in
         let duration_ms := ((end_time - start_time) * 1000)%Q in
         let* device_name := lift (dict_get device_info "name") in
         let* device_type := lift (dict_get device_info "type") in
         let device_result :=
           mk_job_result device_quantum_number device_entanglement_data
             device_name device_type (Some duration_ms) in
         do update_job_status_m device_job_id "completed"
              [("completed_at", SText (isoformat O end_time));
               ("result_data", SText (json_dumps O device_result))] then
         ret (Success local_quantum_number local_entanglement_data
                local_job_id device_job_id device_name None None
                local_result (Some device_result)))
    (λ e, ret (Failure (exn_str e))).

(** [get_job_status] *)
Definition get_job_status (jid : string) : M (option job_row) :=
  let* s := get_state in ret (get_job (job_manager s) jid).

(** The body of the loop of [get_available_devices] for one record: the
    dict is updated in place. *)
Definition annotate (s : service) (device_id : string) (info : device_info)
    : result device_info :=
  let mark (status : string) (configured : bool) :=
    <["aws_configured" := VBool configured]> (<["status" := VStr status]> info) in
  if bool_decide (device_id = "local_simulator") then Ok (mark "Always Available" false)
  else if _aws_session s && bool_decide (device_id ∈ _aws_devices s)
  then Ok (mark "AWS Connected" true)
  else
    match str_field info "arn" with
    | Raise e => Raise e
    | Ok arn =>
        if is_prefix "arn:aws:braket" arn then Ok (mark "AWS Not Configured" false)
        else Ok (mark "Available" false)
    end.

(** The loop over [devices.items()]; an exception leaves the records
    already visited updated. *)
Fixpoint annotate_all (s : service) (devices : registry) : result unit * registry :=
  match devices with
  | [] => (Ok tt, [])
  | (device_id, info) :: rest =>
      match annotate s device_id info with
      | Raise e => (Raise e, (device_id, info) :: rest)
      | Ok info' =>
          let '(r, rest') := annotate_all s rest in
          (r, (device_id, info') :: rest')
      end
  end.

(** [EnhancedQuantumService.get_available_devices]: [devices] is the
    catalogue object itself, so the loop writes into the stored records. *)
Definition get_available_devices : M registry :=
  λ s,
    let devices := Devices.get_available_devices (device_manager s) in
    let '(r, devices') := annotate_all s devices in
    (match r with Ok _ => Ok devices' | Raise e => Raise e end,
     with_devices devices' s).

End Methods.

(** *** Visual properties *)

Section Visuals.

Variable O : oracle.
Variable prng : Z → nat → Q.
Variables cos sin : Q → Q.





End Visuals.

End Service.
Import Service.

(** ** Reports of the job manager *)

Module JobReports.

(** The dict returned by [get_job_stats]. *)
Record job_stats : Type := mk_job_stats {
  active : Z;
  completed : Z;
  failed : Z;
  avg_duration : string }.

(** [SUM(CASE WHEN ... THEN 1 ELSE 0 END)], then [or 0] for the NULL of an
    empty table. *)
Definition count_status (p : string → bool) (rws : list job_row) : Z :=
  Z.of_nat (length (List.filter (λ r, p (status r)) rws)).

Definition is_null (v : sqlval) : bool :=
  match v with SNull => true | _ => false end.

(** [AVG] over the values that are not NULL; NULL when there is none. *)
Definition sql_avg (values : list Q) : option Q :=
  match values with
  | [] => None
  | _ => Some (fold_right Qplus 0%Q values / inject_Z (Z.of_nat (length values)))%Q
  end.

Section Stats.

(** SQLite's [JULIANDAY]: NULL for NULL and for text that is no date. *)
Variable julianday : sqlval → option Q.
(** [f"{x:.1f}"] *)
Variable format_1f : Q → string.

(** The [CASE] inside [AVG]: minutes from creation to completion of a
    completed job, NULL otherwise. *)
Definition duration_minutes (r : job_row) : option Q :=
  if bool_decide (status r = "completed") && negb (is_null (completed_at r)) then
    match julianday (completed_at r), julianday (created_at r) with
    | Some done, Some made => Some ((done - made) * 24 * 60)%Q
    | _, _ => None
    end
  else None.

(** [get_job_stats], the second definition in the class, which is the one
    in effect. *)
Definition get_job_stats (st : store) : job_stats :=
  let avg_time := sql_avg (omap duration_minutes (rows st)) in
  mk_job_stats
    (count_status is_active (rows st))
    (count_status (λ s, bool_decide (s = "completed")) (rows st))
    (count_status (λ s, bool_decide (s = "failed")) (rows st))
    (match avg_time with
     | Some a => if Qltb 0 a then format_1f a +:+ " min" else "N/A"
     | None => "N/A"
     end).

End Stats.

(** One value of the dict returned by [get_job_status_by_device]. *)
Record breakdown : Type := mk_breakdown {
  dev_active : Z;
  dev_completed : Z;
  dev_failed : Z }.

(** The row count of one group. *)
Definition count_rows (p : job_row → bool) (rws : list job_row) : Z :=
  Z.of_nat (length (List.filter p rws)).

Definition group_key (r : job_row) : string * string := (device_id r, status r).

(** The grouped query [GROUP BY device_id, status] with its row counts: one
    row per pair that occurs, with the number of its rows.  SQL leaves the
    order of the groups open; here they come in order of first occurrence. *)
Definition sql_group_count (rws : list job_row) : list (string * string * Z) :=
  map (λ k, (k.1, k.2, count_rows (λ r, bool_decide (group_key r = k)) rws))
    (remove_dups (group_key <$> rws)).

(** The body of the loop over the fetched groups. *)
Definition tally_step (device_status : gmap string breakdown) (g : string * string * Z)
    : gmap string breakdown :=
  let '(dev, st, count) := g in
  let entry := default (mk_breakdown 0 0 0) (device_status !! dev) in
  <[dev :=
      if is_active st then
        mk_breakdown (dev_active entry + count) (dev_completed entry) (dev_failed entry)
      else if bool_decide (st = "completed") then
        mk_breakdown (dev_active entry) (dev_completed entry + count) (dev_failed entry)
      else if bool_decide (st = "failed") then
        mk_breakdown (dev_active entry) (dev_completed entry) (dev_failed entry + count)
      else entry]> device_status.

Definition tally (groups : list (string * string * Z)) : gmap string breakdown :=
  fold_left tally_step groups ∅.

(** [get_job_status_by_device] *)
Definition get_job_status_by_device (st : store) : gmap string breakdown :=
  tally (sql_group_count (rows st)).

(** The counts of the groups of device [d] whose status satisfies [p],
    added up. *)
Definition group_total (p : string → bool) (d : string)
    (groups : list (string * string * Z)) : Z :=
  foldr Z.add 0
    ((λ g : string * string * Z,
        if bool_decide (g.1.1 = d) && p g.1.2 then g.2 else 0) <$> groups).

End JobReports.

(** ** The toy LWE arithmetic of [signature_wall_system.py] *)

Module ToyLWE.

(** [x % q] on ints: the sign follows [q]; [q = 0] raises. *)
Definition py_mod (x q : Z) : result Z :=
  if q =? 0 then Raise ZeroDivisionError else Ok (x mod q).

(** A list comprehension whose element expression may raise. *)
Fixpoint traverse {A B} (f : A → result B) (l : list A) : result (list B) :=
  match l with
  | [] => Ok []
  | x :: rest =>
      match f x with
      | Raise e => Raise e
      | Ok y =>
          match traverse f rest with
          | Raise e => Raise e
          | Ok ys => Ok (y :: ys)
          end
      end
  end.

(** [sum(aij * sj for aij, sj in zip(ai, s))] *)
Definition dot (ai s : list Z) : Z := fold_right Z.add 0 (zip_with Z.mul ai s).

(** [_mat_vec] *)
Definition _mat_vec (A : list (list Z)) (s : list Z) (q : Z) : result (list Z) :=
  traverse (λ ai, py_mod (dot ai s) q) A.

(** [_vec_add] *)
Definition _vec_add (u v : list Z) (q : Z) : result (list Z) :=
  traverse (λ xy, py_mod (xy.1 + xy.2) q) (zip u v).

(** [i.to_bytes(length, "big", signed=False)]; Python raises OverflowError,
    an [Exception], when [i] is negative or does not fit. *)
Fixpoint be_bytes (len : nat) (i : Z) : list Z :=
  match len with
  | O => []
  | S k => be_bytes k (i / 256) ++ [i mod 256]
  end.
Definition _int_to_be (i : Z) (len : nat) : result (list Z) :=
  if (i <? 0) then Raise (Exception "can't convert negative int to unsigned")
  else if (256 ^ Z.of_nat len <=? i) then Raise (Exception "int too big to convert")
  else Ok (be_bytes len i).

(** [int.from_bytes(block, "big")] *)
Definition from_be (block : list Z) : Z := fold_left (λ acc b, 256 * acc + b) block 0.

Section Expander.

(** [hashlib.shake_256(data).digest(outlen)] *)
Variable shake256 : list Z → nat → list Z.

(** The value appended for one value of the counter. *)
Definition block_value (seed : list Z) (q counter : Z) : Z :=
  from_be (shake256 (seed ++ be_bytes 4 counter) 2) mod q.

(** The inner loop [while len(row) < n]: [todo] entries are still missing;
    returns the row and the counter after it. *)
Fixpoint expand_row (seed : list Z) (q : Z) (todo : nat) (counter : Z)
    : result (list Z * Z) :=
  match todo with
  | O => Ok ([], counter)
  | S k =>
      match _int_to_be counter 4 with
      | Raise e => Raise e
      | Ok tag =>
          match py_mod (from_be (shake256 (seed ++ tag) 2)) q with
          | Raise e => Raise e
          | Ok val =>
              match expand_row seed q k (counter + 1) with
              | Raise e => Raise e
              | Ok (row, counter') => Ok (val :: row, counter')
              end
          end
      end
  end.

(** The outer loop [while len(A) < m]. *)
Fixpoint expand_rows (seed : list Z) (q : Z) (n : nat) (todo : nat) (counter : Z)
    : result (list (list Z)) :=
  match todo with
  | O => Ok []
  | S k =>
      match expand_row seed q n counter with
      | Raise e => Raise e
      | Ok (row, counter') =>
          match expand_rows seed q n k counter' with
          | Raise e => Raise e
          | Ok A => Ok (row :: A)
          end
      end
  end.

(** [_prng_matrix_from_seed(seed, q, m, n)] *)
Definition _prng_matrix_from_seed (seed : list Z) (q m n : Z) : result (list (list Z)) :=
  expand_rows seed q (Z.to_nat n) (Z.to_nat m) 0.

End Expander.

End ToyLWE.

(** ** Concrete scenarios *)

Module Scenarios.

(** A deterministic environment: the clock advances by 1000 seconds per
    query, the local simulator measures [0101] for number circuits and an
    even Bell pair, every availability draw picks the last option, Braket
    tasks finish at once. *)
Definition demo_oracle : oracle :=
  mk_oracle
    (λ t, inject_Z (1700000000 + 1000 * Z.of_nat t))
    (λ t, inject_Z (1700000000 + 1000 * Z.of_nat t))
    (λ t, "00000000000000" +:+ pretty t)
    (λ t, "2024-01-01 00:00:00")
    (λ t, 3%nat)
    (λ t c shots, if bool_decide (length c = 4%nat)
                  then Ok [("00", 104); ("11", 96)] else Ok [("0101", 10)])
    (λ t device c shots, Ok (mk_task false (Ok [("00", 510); ("11", 490)])))
    (λ t seed, Ok [("grrgrgeg", 7); ("rrrrgggg", 3)])
    (λ text, Z.of_nat (String.length text))
    (λ text, Z.of_nat (String.length text) * 2 ^ 100)
    (λ c, pretty (length c))
    (λ x, pretty (int_of_float x))
    (λ x, pretty (int_of_float x))
    (λ x, pretty (int_of_float x))
    (λ r, "{quantum_number: " +:+ pretty (r_quantum_number r) +:+ "}").

(** A fresh service whose only Braket handle is the IonQ device: there is
    no ['aws_sv1'] handle to fall back to. *)
Definition svc0 : service :=
  mk_service devices0 empty_store ∅ {["ionq_forte"]} true 0 [].

(** The same with the SV1 handle present. *)
Definition svc_sv1 : service :=
  mk_service devices0 empty_store ∅ {["ionq_forte"; "aws_sv1"]} true 0 [].

(** A table holding one job that already completed. *)
Definition done_row : job_row :=
  mk_row 1 "qjob_1700000000_ab12" SNull "local_simulator" "local://simulator"
    "Alice" "Hello_local" "completed" (SText "2024-01-01 00:00:00") SNull
    (SText "2024-01-01T00:00:01") (SText "first result") SNull SNull.
Definition done_store : store := mk_store [done_row] 1.

(** A table holding one job that is running, and another user's job. *)
Definition running_row : job_row :=
  mk_row 1 "qjob_1700000000_ab12" SNull "ionq_forte"
    "arn:aws:braket:us-east-1::device/qpu/ionq/Forte-Enterprise-1"
    "Alice" "Hello_device" "running" (SText "2024-01-01 00:00:00")
    (SText "2024-01-01T00:00:01") SNull SNull SNull SNull.
Definition other_row : job_row :=
  mk_row 2 "qjob_1700000005_cd34" SNull "local_simulator" "local://simulator"
    "Bob" "Hi_local" "created" (SText "2024-01-01 00:00:05") SNull SNull SNull SNull SNull.
Definition running_store : store := mk_store [running_row; other_row] 2.

(** A service holding a running IonQ job, with no SV1 handle. *)
Definition svc_running : service :=
  mk_service devices0 running_store ∅ {["ionq_forte"]} true 0 [].

(** The state left by a first request for the IonQ device, and the
    coroutine it queued. *)
Definition svc_submitted : service :=
  (process_quantum_signature demo_oracle "Alice" "Hello" "ionq_forte" svc0).2.
Definition submitted_task : task :=
  mk_bg "qjob_1700003000_000000000000004" "ionq_forte" "Alice" "Hello".

(** The state left by a first, uncached, number generation. *)
Definition svc_cached : service :=
  (_generate_quantum_random_number demo_oracle "local_simulator" "Alice:Hello" svc0).2.

(** A generator whose every draw is one half. *)
(** A session holding a handle for the Rigetti processor only. *)
Definition svc_rigetti : service :=
  mk_service devices0 empty_store ∅ {["rigetti_ankaa3"]} true 0 [].

Definition rng_half (seed : Z) (draw : nat) : Q := (1 # 2)%Q.

End Scenarios.
Import Scenarios.

(** ** Vocabulary of the specifications *)

Module Logic.

(** [wp m Q s]: running [m] from [s] ends in a result and a state that
    satisfy [Q]; the methods are total functions, so this is a statement about
    the one run from [s]. *)
Definition wp {A} (m : M A) (Q : result A → service → Prop) (s : service) : Prop :=
  Q (m s).1 (m s).2.

(** What the generation helpers may change: the cache and the query counter. *)
Definition frame (s s' : service) : Prop :=
  device_manager s' = device_manager s ∧ job_manager s' = job_manager s ∧
  _aws_devices s' = _aws_devices s ∧ _aws_session s' = _aws_session s ∧
  pending_tasks s' = pending_tasks s.

(** The helper returns normally and changes at most the cache and the
    query counter. *)
Definition total_frame {A} (s : service) : result A → service → Prop :=
  λ r s', is_ok r = true ∧ frame s s'.

(** The number generator returns normally as soon as the device record
    carries an integer [max_qubits], or the device takes the AHS path. *)
Definition can_generate (s : service) (device_id : string) : Prop :=
  contains "quera" device_id = true ∨
  ∃ mq, get_device_info (device_manager s) device_id !! "max_qubits" = Some (VInt mq).

(** The row inserted by [create_job], and the id it generates next. *)
Definition fresh_row (st : store) (jid ts device_id device_arn user_name user_message : string)
    : job_row :=
  mk_row (last_rowid st + 1) jid SNull device_id device_arn user_name user_message
    "created" (SText ts) SNull SNull SNull SNull SNull.

Definition next_job_id (O : oracle) (s : service) : string :=
  new_job_id (int_of_float (time_time O (tick s))) (token_hex O (S (tick s))).

(** The table after the two INSERTs of [process_quantum_signature]. *)
Definition two_jobs (O : oracle) (s : service) (name response quantum_device arn : string) : store :=
  let s1 := with_tick (S (S (S (tick s)))) s in
  let row1 := fresh_row (job_manager s) (next_job_id O s) (current_timestamp O (S (S (tick s))))
                "local_simulator" "local://simulator" name (response +:+ "_local") in
  let j1 := mk_store (rows (job_manager s) ++ [row1]) (last_rowid (job_manager s) + 1) in
  let row2 := fresh_row j1 (next_job_id O s1) (current_timestamp O (S (S (tick s1))))
                quantum_device arn name (response +:+ "_device") in
  mk_store (rows j1 ++ [row2]) (last_rowid j1 + 1).

(** The two updates of the local job. *)
Definition local_done (O : oracle) (j : store) (jid ts : string) (lres : job_result) : store :=
  update_job_status (update_job_status j jid "running" []) jid "completed"
    [("completed_at", SText ts); ("result_data", SText (json_dumps O lres))].

Definition local_result_of (qn : Z) (ent : list Q) (ms : Q) : job_result :=
  mk_job_result qn ent (VStr "Local Simulator") (VStr "simulator") (Some ms).

(** The two updates of the device job in the inline branch. *)
Definition device_done (O : oracle) (j : store) (jid ts : string) (dres : job_result) : store :=
  update_job_status (update_job_status j jid "running" []) jid "completed"
    [("completed_at", SText ts); ("result_data", SText (json_dumps O dres))].

(** What the entry point preserves once both rows are inserted. *)
Definition holds_both (n : nat) (lj dj : string) (j : store) : Prop :=
  length (rows j) = n ∧ is_Some (get_job j lj) ∧ is_Some (get_job j dj).

End Logic.
Import Logic.

(** ** Invariants of the job table *)

Module Invariants.

(** The UNIQUE constraint on [job_id]. *)
Definition unique_ids (st : store) : Prop := NoDup (job_id <$> rows st).

(** The five statuses the service writes. *)
Definition known_status (s : string) : bool :=
  is_active s || is_terminal s.

(** The rows of [st0] are still there, unchanged and in place, in [st],
    followed by [n] more. *)
Definition grown_by (n : nat) (st0 st : store) : Prop :=
  ∃ added, rows st = rows st0 ++ added ∧ length added = n.

(** Nothing but the query counter differs between [s] and [s']. *)
Definition ticks_only (s s' : service) : Prop :=
  frame s s' ∧ _circuit_cache s' = _circuit_cache s.

(** The job of [jid] is still looked up, with the identity columns of [row]. *)
Definition tracked (jid : string) (row : job_row) (st : store) : Prop :=
  ∃ row', get_job st jid = Some row' ∧ same_identity row row'.

(** Only the row of [jid] may differ between [st0] and [st]. *)
Definition same_but (jid : string) (st0 st : store) : Prop :=
  length (rows st) = length (rows st0) ∧
  ∀ i r, rows st0 !! i = Some r → job_id r ≠ jid → rows st !! i = Some r.

End Invariants.
Import Invariants.

(** * Facts *)

(** ** Arithmetic of [min], [max] and comparisons *)

Lemma Qltb_lt a b : Qltb a b = true <-> (a < b)%Q.
Proof. unfold Qltb, Qlt. apply Z.ltb_lt. Qed.

Lemma Qltb_ge a b : Qltb a b = false <-> (b <= a)%Q.
Proof. unfold Qltb, Qle. rewrite Z.ltb_ge. reflexivity. Qed.

Lemma py_min_spec a b :
  (py_min a b <= a)%Q /\ (py_min a b <= b)%Q /\ (py_min a b = a \/ py_min a b = b).
Proof.
  unfold py_min. destruct (Qltb b a) eqn:E.
  - apply Qltb_lt in E. repeat split; [lra | lra | now right].
  - apply Qltb_ge in E. repeat split; [lra | lra | now left].
Qed.

Lemma py_max_spec a b :
  (a <= py_max a b)%Q /\ (b <= py_max a b)%Q /\ (py_max a b = a \/ py_max a b = b).
Proof.
  unfold py_max. destruct (Qltb a b) eqn:E.
  - apply Qltb_lt in E. repeat split; [lra | lra | now right].
  - apply Qltb_ge in E. repeat split; [lra | lra | now left].
Qed.

(** ** Properties of the job table *)

Section JobStoreFacts.

Lemma assign_identity col v r : same_identity r (assign col v r).
Proof.
  unfold assign, same_identity.
  repeat (case_bool_decide; [cbn; tauto |]). tauto.
Qed.

Lemma assign_status col v r : status (assign col v r) = status r.
Proof. unfold assign. repeat (case_bool_decide; [reflexivity |]). reflexivity. Qed.

Lemma same_identity_trans r1 r2 r3 :
  same_identity r1 r2 → same_identity r2 r3 → same_identity r1 r3.
Proof. unfold same_identity. intuition congruence. Qed.

Lemma fold_assign_identity clauses r :
  same_identity r (fold_left (λ acc kv, assign kv.1 kv.2 acc) clauses r).
Proof.
  revert r. induction clauses as [|[c v] cl IH]; intros r; cbn.
  - unfold same_identity; tauto.
  - eapply same_identity_trans; [apply (assign_identity c v) | apply IH].
Qed.

Lemma fold_assign_status clauses r :
  status (fold_left (λ acc kv, assign kv.1 kv.2 acc) clauses r) = status r.
Proof.
  revert r. induction clauses as [|[c v] cl IH]; intros r; cbn; [done|].
  rewrite IH. apply assign_status.
Qed.

Lemma apply_set_identity s clauses r : same_identity r (apply_set s clauses r).
Proof.
  unfold apply_set. eapply same_identity_trans; [| apply fold_assign_identity].
  unfold same_identity; cbn; tauto.
Qed.

Lemma apply_set_status s clauses r : status (apply_set s clauses r) = s.
Proof. unfold apply_set. rewrite fold_assign_status. reflexivity. Qed.

Lemma apply_set_job_id s clauses r : job_id (apply_set s clauses r) = job_id r.
Proof. apply (apply_set_identity s clauses r). Qed.







Lemma set_clauses_idemp kwargs : set_clauses (set_clauses kwargs) = set_clauses kwargs.
Proof.
  unfold set_clauses. induction kwargs as [|kv kw IH]; [done|].
  rewrite filter_cons. case_decide; [|done].
  rewrite filter_cons. case_decide; [|done]. by rewrite IH.
Qed.

Lemma find_map_preserve {A} (p : A → bool) (f : A → A) (l : list A) :
  (∀ x, p (f x) = p x) → find p (map f l) = f <$> find p l.
Proof.
  intros Hp. induction l as [|x l IH]; cbn; [done|].
  rewrite Hp. destruct (p x); [done | apply IH].
Qed.

Lemma get_job_update st jid s clauses jid' :
  get_job (sql_update s clauses jid st) jid' =
  (λ r, if bool_decide (job_id r = jid) then apply_set s clauses r else r) <$> get_job st jid'.
Proof.
  unfold get_job, sql_update; cbn. apply find_map_preserve.
  intros r. destruct (bool_decide (job_id r = jid)); [|done]. by rewrite apply_set_job_id.
Qed.

Lemma get_job_Some_id st jid r : get_job st jid = Some r → job_id r = jid.
Proof.
  unfold get_job. intros H. apply find_some in H as [_ H].
  by apply bool_decide_eq_true in H.
Qed.

Lemma get_job_None st jid r : get_job st jid = None → r ∈ rows st → job_id r ≠ jid.
Proof.
  unfold get_job. intros H Hin Heq.
  apply list_elem_of_In in Hin. pose proof (find_none _ _ H r Hin) as Hf.
  cbn in Hf. by apply bool_decide_eq_false in Hf.
Qed.

End JobStoreFacts.

(** ** A weakest-precondition calculus for the service monad *)

Section WpRules.

Lemma wp_ret {A} (a : A) Q s : Q (Ok a) s → wp (ret a) Q s.
Proof. done. Qed.

Lemma wp_raise {A} e (Q : result A → service → Prop) s : Q (Raise e) s → wp (raise e) Q s.
Proof. done. Qed.

Lemma wp_lift {A} (r : result A) Q s : Q r s → wp (lift r) Q s.
Proof. done. Qed.

Lemma wp_get_state Q s : Q (Ok s) s → wp get_state Q s.
Proof. done. Qed.

Lemma wp_modify f Q s : Q (Ok tt) (f s) → wp (modify f) Q s.
Proof. done. Qed.

Lemma wp_query {A} (f : nat → A) Q s :
  Q (Ok (f (tick s))) (with_tick (S (tick s)) s) → wp (query f) Q s.
Proof. done. Qed.

Lemma wp_bind {A B} (m : M A) (f : A → M B) Q s :
  wp m (λ r s', match r with
                | Ok a => wp (f a) Q s'
                | Raise e => Q (Raise e) s'
                end) s →
  wp (bind m f) Q s.
Proof. unfold wp, bind. by destruct (m s) as [[a|e] s']. Qed.

Lemma wp_try_except {A} (body : M A) (handler : exn → M A) Q s :
  wp body (λ r s', match r with
                   | Ok a => Q (Ok a) s'
                   | Raise e => wp (handler e) Q s'
                   end) s →
  wp (try_except body handler) Q s.
Proof. unfold wp, try_except. by destruct (body s) as [[a|e] s']. Qed.

Lemma wp_mono {A} (m : M A) (Q Q' : result A → service → Prop) s :
  wp m Q s → (∀ r s', Q r s' → Q' r s') → wp m Q' s.
Proof. unfold wp. auto. Qed.

Lemma wp_eq {A} (m : M A) Q s r s' : m s = (r, s') → Q r s' → wp m Q s.
Proof. unfold wp. by intros ->. Qed.

Lemma wp_run {A} (m : M A) Q s r s' : wp m Q s → m s = (r, s') → Q r s'.
Proof. unfold wp. intros H E. by rewrite E in H. Qed.

Lemma frame_refl s : frame s s.
Proof. by unfold frame. Qed.

Lemma frame_trans s1 s2 s3 : frame s1 s2 → frame s2 s3 → frame s1 s3.
Proof. unfold frame. intuition congruence. Qed.

Lemma frame_tick n s : frame s (with_tick n s).
Proof. by unfold frame. Qed.

Lemma frame_cache c s : frame s (with_cache c s).
Proof. by unfold frame. Qed.

End WpRules.

Global Opaque wp.

Ltac frame_solve :=
  repeat match goal with
         | H : frame _ _ |- _ => unfold frame in H; cbn in H; destruct H as (?&?&?&?&?)
         end;
  unfold frame; cbn; repeat split; congruence.

(** One structural step of the calculus. *)
Ltac wp_step :=
  lazymatch goal with
  | |- wp (bind _ _) _ _ => apply wp_bind
  | |- wp (try_except _ _) _ _ => apply wp_try_except
  | |- wp (ret _) _ _ => apply wp_ret
  | |- wp (raise _) _ _ => apply wp_raise
  | |- wp (lift _) _ _ => apply wp_lift
  | |- wp get_state _ _ => apply wp_get_state
  | |- wp (modify _) _ _ => apply wp_modify
  | |- wp (query _) _ _ => apply wp_query
  | |- wp (if ?b then _ else _) _ _ => destruct b eqn:?
  | |- wp (match ?x with _ => _ end) _ _ => destruct x eqn:?
  | |- match ?x with _ => _ end => first [progress cbn beta iota | destruct x eqn:?]
  end.

(** ** Totality and frame of the generation helpers *)

Create HintDb wp_specs.

Ltac norm :=
  cbn [tick job_manager device_manager _circuit_cache _aws_devices _aws_session
       pending_tasks with_jobs with_tick with_cache with_tasks with_devices] in *.

Ltac wp_steps := repeat (wp_step; norm).

Ltac wp_leaf := first [ done | split; [done | frame_solve] ].

Ltac wp_call :=
  eapply wp_mono; [ solve [eauto with wp_specs] | ];
  let r := fresh "r" in
  let s' := fresh "s" in
  let Hok := fresh "Hok" in
  let Hfr := fresh "Hfr" in
  intros r s' [Hok Hfr]; destruct r as [?|?]; [ | discriminate Hok ]; clear Hok.

Ltac wp_auto := repeat first [ wp_step | wp_call ].

Section ServiceFacts.
Variable O : oracle.

Lemma random_choice_spec options s :
  wp (random_choice O options) (total_frame s) s.
Proof. unfold random_choice, total_frame. wp_auto. wp_leaf. Qed.
Hint Resolve random_choice_spec : wp_specs.

Lemma _check_device_availability_spec device_id s :
  wp (_check_device_availability O device_id) (total_frame s) s.
Proof.
  unfold _check_device_availability, total_frame. wp_auto; wp_leaf.
Qed.
Hint Resolve _check_device_availability_spec : wp_specs.

Lemma run_on_device_frame msg c device_id shots s :
  wp (run_on_device O msg c device_id shots) (λ _ s', frame s s') s.
Proof.
  unfold run_on_device. wp_auto; try frame_solve.
Qed.

Lemma _execute_on_device_spec c device_id shots s :
  wp (_execute_on_device O c device_id shots) (total_frame s) s.
Proof.
  unfold _execute_on_device, total_frame. do 2 wp_step.
  eapply wp_mono; [apply run_on_device_frame|]. intros r s' Hfr.
  wp_auto; wp_leaf.
Qed.
Hint Resolve _execute_on_device_spec : wp_specs.

Lemma _execute_bell_state_on_device_spec c device_id shots s :
  wp (_execute_bell_state_on_device O c device_id shots) (total_frame s) s.
Proof.
  unfold _execute_bell_state_on_device, total_frame. do 2 wp_step.
  eapply wp_mono; [apply run_on_device_frame|]. intros r s' Hfr.
  wp_auto; wp_leaf.
Qed.
Hint Resolve _execute_bell_state_on_device_spec : wp_specs.

Lemma _create_bell_state_circuit_spec device_id s :
  wp (_create_bell_state_circuit O device_id) (total_frame s) s.
Proof.
  unfold _create_bell_state_circuit, total_frame. wp_auto; wp_leaf.
Qed.
Hint Resolve _create_bell_state_circuit_spec : wp_specs.

Lemma hash_fallback_spec seed_text s :
  wp (hash_fallback O seed_text) (total_frame s) s.
Proof. unfold hash_fallback, total_frame. wp_auto; wp_leaf. Qed.
Hint Resolve hash_fallback_spec : wp_specs.

Lemma _ahs_from_seed_frame device_id seed_text s :
  wp (_ahs_from_seed O device_id seed_text) (λ _ s', frame s s') s.
Proof. unfold _ahs_from_seed. wp_auto; frame_solve. Qed.


Lemma _generate_quantum_random_number_spec device_id seed_text s :
  can_generate s device_id →
  wp (_generate_quantum_random_number O device_id seed_text) (total_frame s) s.
Proof.
  intros Hgen. unfold _generate_quantum_random_number, total_frame, cache_store.
  do 3 wp_step. { wp_auto; wp_leaf. }
  wp_step.
  - do 2 wp_step.
    eapply wp_mono; [apply _ahs_from_seed_frame|]. intros r s' Hfr.
    wp_auto; wp_leaf.
  - destruct Hgen as [Hq|[mq Hmq]]; [congruence|].
    unfold int_field, dict_get. rewrite Hmq. cbn.
    wp_auto; wp_leaf.
Qed.

Lemma _estimate_completion_time_spec info ty arn s :
  info !! "type" = Some ty → info !! "arn" = Some (VStr arn) →
  wp (_estimate_completion_time O info) (total_frame s) s.
Proof.
  intros Hty Harn. unfold _estimate_completion_time, total_frame, str_field, dict_get.
  rewrite Hty, Harn. cbn. wp_auto; wp_leaf.
Qed.

Lemma create_job_m_spec device_id device_arn user_name user_message s :
  get_job (job_manager s) (next_job_id O s) = None →
  create_job_m O device_id device_arn user_name user_message s =
  (Ok (next_job_id O s),
   with_jobs
     (mk_store
        (rows (job_manager s) ++
         [fresh_row (job_manager s) (next_job_id O s) (current_timestamp O (S (S (tick s))))
            device_id device_arn user_name user_message])
        (last_rowid (job_manager s) + 1))
     (with_tick (S (S (S (tick s)))) s)).
Proof.
  intros Hfresh. unfold create_job_m, bind, query, create_job. cbn.
  unfold next_job_id in Hfresh. rewrite Hfresh. reflexivity.
Qed.


Lemma dict_empty_false (info : device_info) k v : info !! k = Some v → dict_empty info = false.
Proof.
  intros H. unfold dict_empty. apply bool_decide_eq_false. intros Hd.
  apply dom_empty_iff_L in Hd. subst. by rewrite lookup_empty in H.
Qed.

Lemma get_job_snoc st n r jid :
  get_job (mk_store (rows st ++ [r]) n) jid =
  match get_job st jid with
  | Some x => Some x
  | None => if bool_decide (job_id r = jid) then Some r else None
  end.
Proof.
  unfold get_job; cbn. induction (rows st) as [|x l IH]; cbn; [done|].
  destruct (bool_decide (job_id x = jid)); [done | apply IH].
Qed.

Lemma process_quantum_signature_async name response quantum_device s arn nm ty :
  let info := get_device_info (device_manager s) quantum_device in
  let id1 := next_job_id O s in
  let id2 := next_job_id O (with_tick (S (S (S (tick s)))) s) in
  info !! "arn" = Some (VStr arn) → info !! "name" = Some nm → info !! "type" = Some ty →
  truthy (dict_get_default info "async_required" (VBool false)) = true →
  can_generate s "local_simulator" →
  get_job (job_manager s) id1 = None → get_job (job_manager s) id2 = None → id1 ≠ id2 →
  wp (process_quantum_signature O name response quantum_device)
    (λ r s', ∃ qn ent ms ts est,
       r = Ok (Success qn ent id1 id2 nm (Some ty) (Some est)
                 (local_result_of qn ent ms) None) ∧
       job_manager s' =
         local_done O (two_jobs O s name response quantum_device arn) id1 ts
           (local_result_of qn ent ms) ∧
       pending_tasks s' = pending_tasks s ++ [mk_bg id2 quantum_device name response] ∧
       device_manager s' = device_manager s) s.
Proof.
  intros info id1 id2 Harn Hnm Hty Hasync Hgen Hf1 Hf2 Hne.
  unfold process_quantum_signature. do 3 wp_step. fold info.
  rewrite (dict_empty_false _ _ _ Harn).
  wp_step. eapply wp_eq; [by apply create_job_m_spec|]. fold id1. cbn beta iota.
  wp_step. unfold str_field, dict_get. rewrite Harn. cbn [result_bind as_str]. wp_step.
  wp_step. eapply wp_eq.
  { apply create_job_m_spec. cbn [job_manager with_jobs].
    rewrite get_job_snoc.
    change (next_job_id O (with_jobs _ (with_tick (S (S (S (tick s)))) s))) with id2.
    rewrite Hf2. cbn [fresh_row job_id]. by rewrite bool_decide_false. }
  change (next_job_id O (with_jobs _ (with_tick (S (S (S (tick s)))) s))) with id2.
  norm. cbn beta iota.
  set (J2 := mk_store _ _).
  unfold update_job_status_m, create_task.
  do 6 (wp_step; norm).
  wp_step. eapply wp_mono; [by apply _generate_quantum_random_number_spec|].
  intros [qn|e] s2 [Hok2 Hfr2]; [clear Hok2|discriminate].
  wp_step. wp_call. do 4 (wp_step; norm).
  rewrite Hasync. do 2 (wp_step; norm).
  rewrite Hnm, Hty. do 5 (wp_step; norm).
  eapply wp_mono; [by eapply _estimate_completion_time_spec|].
  intros [est|e] s4 [Hok4 Hfr4]; [clear Hok4|discriminate].
  wp_step.
  eexists qn, _, _, _, est. split; [reflexivity|].
  unfold frame in *. norm.
  destruct Hfr as (Hd3 & Hj3 & _ & _ & Ht3), Hfr2 as (Hd2 & Hj2 & _ & _ & Ht2),
    Hfr4 as (Hd4 & Hj4 & _ & _ & Ht4).
  split_and!; [| congruence | congruence].
  rewrite Hj4, Hj3, Hj2. reflexivity.
Qed.

Lemma process_quantum_signature_inline name response quantum_device s arn nm ty :
  let info := get_device_info (device_manager s) quantum_device in
  let id1 := next_job_id O s in
  let id2 := next_job_id O (with_tick (S (S (S (tick s)))) s) in
  info !! "arn" = Some (VStr arn) → info !! "name" = Some nm → info !! "type" = Some ty →
  truthy (dict_get_default info "async_required" (VBool false)) = false →
  can_generate s "local_simulator" → can_generate s quantum_device →
  get_job (job_manager s) id1 = None → get_job (job_manager s) id2 = None → id1 ≠ id2 →
  wp (process_quantum_signature O name response quantum_device)
    (λ r s', ∃ qn ent ms ts dqn dent dms dts,
       r = Ok (Success qn ent id1 id2 nm None None (local_result_of qn ent ms)
                 (Some (mk_job_result dqn dent nm ty (Some dms)))) ∧
       job_manager s' =
         device_done O
           (local_done O (two_jobs O s name response quantum_device arn) id1 ts
              (local_result_of qn ent ms))
           id2 dts (mk_job_result dqn dent nm ty (Some dms)) ∧
       pending_tasks s' = pending_tasks s ∧
       device_manager s' = device_manager s) s.
Proof.
  intros info id1 id2 Harn Hnm Hty Hasync Hgen Hgend Hf1 Hf2 Hne.
  unfold process_quantum_signature. do 3 wp_step. fold info.
  rewrite (dict_empty_false _ _ _ Harn).
  wp_step. eapply wp_eq; [by apply create_job_m_spec|]. fold id1. cbn beta iota.
  wp_step. unfold str_field, dict_get. rewrite Harn. cbn [result_bind as_str]. wp_step.
  wp_step. eapply wp_eq.
  { apply create_job_m_spec. cbn [job_manager with_jobs].
    rewrite get_job_snoc.
    change (next_job_id O (with_jobs _ (with_tick (S (S (S (tick s)))) s))) with id2.
    rewrite Hf2. cbn [fresh_row job_id]. by rewrite bool_decide_false. }
  change (next_job_id O (with_jobs _ (with_tick (S (S (S (tick s)))) s))) with id2.
  norm. cbn beta iota.
  set (J2 := mk_store _ _).
  unfold update_job_status_m, create_task.
  do 6 (wp_step; norm).
  wp_step. eapply wp_mono; [by apply _generate_quantum_random_number_spec|].
  intros [qn|e] s2 [Hok2 Hfr2]; [clear Hok2|discriminate].
  wp_step. wp_call. do 4 (wp_step; norm).
  rewrite Hasync. do 6 (wp_step; norm).
  wp_step. eapply wp_mono.
  { apply _generate_quantum_random_number_spec.
    unfold can_generate, frame in *. norm.
    destruct Hfr as (Hd3 & _), Hfr2 as (Hd2 & _). by rewrite Hd3, Hd2. }
  intros [dqn|e] s4 [Hok4 Hfr4]; [clear Hok4|discriminate].
  wp_step. wp_call. do 2 (wp_step; norm).
  rewrite Hnm, Hty. do 7 (wp_step; norm).
  eexists qn, _, _, _, dqn, _, _, _. split; [reflexivity|].
  unfold frame in *. norm.
  destruct Hfr as (Hd3 & Hj3 & _ & _ & Ht3), Hfr2 as (Hd2 & Hj2 & _ & _ & Ht2),
    Hfr4 as (Hd4 & Hj4 & _ & _ & Ht4), Hfr0 as (Hd5 & Hj5 & _ & _ & Ht5).
  split_and!; [| congruence | congruence].
  rewrite Hj5, Hj4, Hj3, Hj2. reflexivity.
Qed.


Lemma get_job_update_status st jid s kwargs r :
  get_job st jid = Some r →
  ∃ r', get_job (update_job_status st jid s kwargs) jid = Some r' ∧
        r' = apply_set s (set_clauses kwargs) r ∧ status r' = s ∧ same_identity r r'.
Proof.
  intros Hr. unfold update_job_status. rewrite get_job_update, Hr. cbn.
  rewrite (bool_decide_true _ (get_job_Some_id _ _ _ Hr)).
  eexists; split_and!; [done | done | apply apply_set_status | apply apply_set_identity].
Qed.

Lemma get_job_update_other st jid s kwargs jid' :
  jid' ≠ jid →
  get_job (update_job_status st jid s kwargs) jid' = get_job st jid'.
Proof.
  intros Hne. unfold update_job_status. rewrite get_job_update.
  destruct (get_job st jid') as [r|] eqn:Hr; cbn; [|done].
  rewrite bool_decide_false; [done|]. by rewrite (get_job_Some_id _ _ _ Hr).
Qed.

Lemma update_job_status_length st jid s kwargs :
  length (rows (update_job_status st jid s kwargs)) = length (rows st).
Proof. unfold update_job_status, sql_update; cbn. by rewrite length_map. Qed.



End ServiceFacts.

#[global] Hint Resolve random_choice_spec _check_device_availability_spec
  _execute_on_device_spec _execute_bell_state_on_device_spec
  _create_bell_state_circuit_spec hash_fallback_spec : wp_specs.

(** ** Claims about the job table *)

Section JobStoreClaims.

Lemma update_job_status_unknown st jid s kwargs :
  get_job st jid = None → update_job_status st jid s kwargs = st.
Proof.
  intros Hnone. unfold update_job_status, sql_update.
  destruct st as [rws n]; cbn in *. f_equal.
  assert (Hall : ∀ r, r ∈ rws → job_id r ≠ jid)
    by (intros r Hr; exact (get_job_None (mk_store rws n) jid r Hnone Hr)).
  clear Hnone. induction rws as [|r l IH]; cbn; [done|].
  rewrite bool_decide_false by (apply Hall; left).
  f_equal. apply IH. intros r' Hr'. apply Hall. by right.
Qed.

(** C1, counterexample: a job that is already 'completed' is updated like
    any other; its status and its result payload are overwritten. *)
Lemma update_job_status_terminal_overwritten :
  (∃ r, get_job done_store "qjob_1700000000_ab12" = Some r ∧
        is_terminal (status r) = true ∧ result_data r = SText "first result") ∧
  (∃ r', get_job
           (update_job_status done_store "qjob_1700000000_ab12" "running"
              [("result_data", SText "late result")])
           "qjob_1700000000_ab12" = Some r' ∧
         status r' = "running" ∧ result_data r' = SText "late result") ∧
  update_job_status done_store "qjob_1700000000_ab12" "running"
    [("result_data", SText "late result")] ≠ done_store.
Proof.
  split_and!.
  - exists done_row. by vm_compute.
  - eexists. split_and!; by vm_compute.
  - by vm_compute.
Qed.

(** C1, amended: updating an unknown job id changes no stored row and
    raises nothing; updating a known job, whatever its current status
    ('completed' and 'failed' included), rewrites its row with the new status
    and the accepted columns named in the call. *)
Theorem update_job_status_unknown_or_known st jid s kwargs :
  match get_job st jid with
  | None => update_job_status st jid s kwargs = st
  | Some r =>
      get_job (update_job_status st jid s kwargs) jid =
        Some (apply_set s (set_clauses kwargs) r) ∧
      status (apply_set s (set_clauses kwargs) r) = s
  end.
Proof.
  destruct (get_job st jid) as [r|] eqn:Hr.
  - destruct (get_job_update_status st jid s kwargs r Hr) as (r' & Hr' & -> & Hs & _).
    by split.
  - by apply update_job_status_unknown.
Qed.

Lemma update_job_status_row_frame st jid s kwargs i r2 :
  rows st !! i = Some r2 → job_id r2 ≠ jid →
  rows (update_job_status st jid s kwargs) !! i = Some r2.
Proof.
  intros Hi Hne. unfold update_job_status, sql_update; cbn.
  rewrite list_lookup_fmap, Hi. cbn. by rewrite bool_decide_false.
Qed.




End JobStoreClaims.

(** ** Claims about the orchestrator *)

Section OrchestratorClaims.

Variable O : oracle.

(** C4, amended: an unknown device is detected first; the call returns the
    failure reply at once and leaves the whole state, the job table included,
    as it was: no job has been created. *)
Theorem process_quantum_signature_unknown_device name response quantum_device s :
  dict_empty (get_device_info (device_manager s) quantum_device) = true →
  process_quantum_signature O name response quantum_device s =
    (Ok (Failure ("Unknown quantum device: " +:+ quantum_device)), s).
Proof.
  intros Hempty. unfold process_quantum_signature, try_except, bind, get_state.
  by rewrite Hempty.
Qed.

(** C7, amended: on a cached key the generator returns
    [(base + int(time)) % 1000] and changes nothing but the query counter, so
    the cached base stays fixed; for a base in [0, 1000) the value returned
    equals the base exactly when the integer part of the clock reading is a
    multiple of 1000. *)
Theorem _generate_quantum_random_number_cache_hit device_id seed_text s base :
  _circuit_cache s !! md5 O (device_id +:+ "_" +:+ seed_text) = Some base →
  let t := time_time O (tick s) in
  _generate_quantum_random_number O device_id seed_text s =
    (Ok ((base + int_of_float t) mod 1000), with_tick (S (tick s)) s) ∧
  (0 ≤ base < 1000 →
   ((base + int_of_float t) mod 1000 = base ↔ int_of_float t mod 1000 = 0)).
Proof.
  intros Hhit t. split.
  - unfold _generate_quantum_random_number, bind, get_state. by rewrite Hhit.
  - intros Hb. rewrite Z.add_mod by lia. rewrite (Z.mod_small base 1000) by lia.
    pose proof (Z.mod_pos_bound (int_of_float t) 1000 ltac:(lia)) as Hm.
    split.
    + intros Heq.
      destruct (decide (base + int_of_float t mod 1000 < 1000)) as [Hlt|Hge].
      * rewrite Z.mod_small in Heq by lia. lia.
      * rewrite <- (Z.mod_add _ (-1) 1000) in Heq by lia.
        rewrite Z.mod_small in Heq by lia. lia.
    + intros ->. rewrite Z.add_0_r. apply Z.mod_small. lia.
Qed.

End OrchestratorClaims.

(** ** The entry point always works on two distinct job rows *)

Section TwoJobs.

Variable O : oracle.

Ltac wp_frame :=
  eapply wp_mono; [ solve [eauto with wp_specs] | ];
  let r := fresh "r" in
  let s' := fresh "s" in
  let Hfr := fresh "Hfr" in
  intros r s' Hfr.

Lemma weaken_total_frame {A} (m : M A) s :
  wp m (total_frame s) s → wp m (λ _ s', frame s s') s.
Proof. intros H. eapply wp_mono; [exact H|]. by intros r s' [_ Hfr]. Qed.

Lemma _generate_quantum_random_number_frame device_id seed_text s :
  wp (_generate_quantum_random_number O device_id seed_text) (λ _ s', frame s s') s.
Proof.
  unfold _generate_quantum_random_number, cache_store.
  do 3 wp_step. { wp_steps; frame_solve. }
  wp_step.
  - do 2 wp_step.
    eapply wp_mono; [apply _ahs_from_seed_frame|]. intros r s' Hfr.
    wp_steps.
    + frame_solve.
    + eapply wp_mono; [apply hash_fallback_spec|]. intros r' s'' [_ Hfr']. frame_solve.
  - wp_steps; [|frame_solve]. 
    eapply wp_mono; [apply _execute_on_device_spec|]. intros r' s'' [_ Hfr'].
    wp_steps.
    + frame_solve.
    + eapply wp_mono; [apply hash_fallback_spec|]. intros r2 s2 [_ Hfr2]. frame_solve.
Qed.

Lemma _estimate_completion_time_frame info s :
  wp (_estimate_completion_time O info) (λ _ s', frame s s') s.
Proof. unfold _estimate_completion_time. wp_steps; frame_solve. Qed.

Lemma create_job_m_cases device_id device_arn user_name user_message s :
  wp (create_job_m O device_id device_arn user_name user_message)
    (λ r s',
       device_manager s' = device_manager s ∧ pending_tasks s' = pending_tasks s ∧
       tick s' = S (S (S (tick s))) ∧
       match r with
       | Ok jid =>
           jid = next_job_id O s ∧ get_job (job_manager s) jid = None ∧
           ∃ row, job_id row = jid ∧ status row = "created" ∧
                  rows (job_manager s') = rows (job_manager s) ++ [row]
       | Raise _ => job_manager s' = job_manager s
       end) s.
Proof.
  destruct (get_job (job_manager s) (next_job_id O s)) as [r|] eqn:Hf.
  - eapply wp_eq.
    + unfold create_job_m, bind, query, create_job. cbn.
      unfold next_job_id in Hf. rewrite Hf. reflexivity.
    + by cbn.
  - eapply wp_eq; [by apply create_job_m_spec|]. cbn.
    split_and!; [done..|]. eexists. split_and!; [| |done]; done.
Qed.

Lemma holds_both_update n lj dj j jid s kwargs :
  holds_both n lj dj j → holds_both n lj dj (update_job_status j jid s kwargs).
Proof.
  intros (Hlen & Hl & Hd). unfold holds_both.
  rewrite update_job_status_length. split_and!; [done| |].
  - unfold update_job_status. rewrite get_job_update. by apply fmap_is_Some.
  - unfold update_job_status. rewrite get_job_update. by apply fmap_is_Some.
Qed.


Lemma get_job_rows st st' jid : rows st' = rows st → get_job st' jid = get_job st jid.
Proof. unfold get_job. by intros ->. Qed.

Lemma get_job_appended st st' row jid :
  rows st' = rows st ++ [row] →
  get_job st' jid =
  match get_job st jid with
  | Some x => Some x
  | None => if bool_decide (job_id row = jid) then Some row else None
  end.
Proof.
  intros Hrows. rewrite <- (get_job_snoc st 0 row jid). by apply get_job_rows.
Qed.

Ltac wp_sub :=
  first
    [ eapply wp_mono; [apply _generate_quantum_random_number_frame|]
    | eapply wp_mono; [apply weaken_total_frame, _create_bell_state_circuit_spec|]
    | eapply wp_mono; [apply _estimate_completion_time_frame|] ];
  let r := fresh "r" in
  let s' := fresh "s" in
  let Hfr := fresh "Hfr" in
  intros r s' Hfr.

Ltac chase_jobs :=
  repeat match goal with
         | H : frame _ _ |- _ =>
             unfold frame in H; norm; destruct H as (_ & ? & _ & _ & _)
         end;
  repeat match goal with
         | H : job_manager ?x = _ |- _ => rewrite H; clear H
         end.

Lemma process_quantum_signature_two_rows name response quantum_device s :
  wp (process_quantum_signature O name response quantum_device)
    (λ r s', ∀ qn ent lj dj nm ty est lres dres,
       r = Ok (Success qn ent lj dj nm ty est lres dres) →
       lj ≠ dj ∧ get_job (job_manager s) lj = None ∧ get_job (job_manager s) dj = None ∧
       holds_both (length (rows (job_manager s)) + 2) lj dj (job_manager s')) s.
Proof.
  unfold process_quantum_signature. do 4 wp_step.
  { wp_step. intros; discriminate. }
  wp_step. eapply wp_mono; [apply create_job_m_cases|].
  intros [lj|e] s1 (Hd1 & Hp1 & Ht1 & Hc1); [|wp_step; intros; discriminate].
  destruct Hc1 as (Elj & Hf1 & row1 & Hid1 & Hst1 & Hrows1).
  wp_step. wp_step. wp_step; [|wp_step; intros; discriminate].
  wp_step. eapply wp_mono; [apply create_job_m_cases|].
  intros [dj|e] s2 (Hd2 & Hp2 & Ht2 & Hc2); [|wp_step; intros; discriminate].
  destruct Hc2 as (Edj & Hf2 & row2 & Hid2 & Hst2 & Hrows2).
  assert (Hlj1 : get_job (job_manager s1) lj = Some row1).
  { rewrite (get_job_appended _ _ _ _ Hrows1), Hf1. by rewrite bool_decide_true. }
  assert (Hne : lj ≠ dj) by (intros ->; congruence).
  assert (Hdj0 : get_job (job_manager s) dj = None).
  { rewrite (get_job_appended _ _ _ _ Hrows1) in Hf2.
    by destruct (get_job (job_manager s) dj). }
  assert (Hboth : holds_both (length (rows (job_manager s)) + 2) lj dj (job_manager s2)).
  { unfold holds_both. rewrite Hrows2, Hrows1, !length_app. cbn. split_and!; [lia| |].
    - rewrite (get_job_appended _ _ _ _ Hrows2), Hlj1. eauto.
    - rewrite (get_job_appended _ _ _ _ Hrows2), Hf2, bool_decide_true by done. eauto. }
  clear Hrows1 Hrows2 Hlj1 Hf2.
  unfold update_job_status_m, create_task.
  repeat first [ wp_step; norm | wp_sub ].
  all: intros qn' ent' lj' dj' nm' ty' est' lres' dres' Heq; try discriminate.
  all: injection Heq as <- <- <- <-.
  all: split_and!; [done..|].
  all: chase_jobs.
  all: repeat apply holds_both_update; done.
Qed.




End TwoJobs.

Section DualTrackClaims.

Variable O : oracle.

Lemma two_jobs_local s name response quantum_device arn :
  get_job (job_manager s) (next_job_id O s) = None →
  ∃ row, get_job (two_jobs O s name response quantum_device arn) (next_job_id O s) = Some row ∧
         status row = "created" ∧ device_id row = "local_simulator".
Proof.
  intros Hf1. unfold two_jobs. cbn zeta. rewrite get_job_snoc.
  cbn [rows]. rewrite get_job_snoc, Hf1. cbn [fresh_row job_id].
  rewrite bool_decide_true by done. eauto.
Qed.

Lemma two_jobs_device s name response quantum_device arn :
  let id2 := next_job_id O (with_tick (S (S (S (tick s)))) s) in
  get_job (job_manager s) id2 = None → next_job_id O s ≠ id2 →
  ∃ row, get_job (two_jobs O s name response quantum_device arn) id2 = Some row ∧
         status row = "created" ∧ device_id row = quantum_device.
Proof.
  intros id2 Hf2 Hne. unfold two_jobs. cbn zeta. rewrite get_job_snoc.
  cbn [rows]. rewrite get_job_snoc. fold id2. rewrite Hf2. cbn [fresh_row job_id].
  rewrite bool_decide_false by done. rewrite bool_decide_true by done. eauto.
Qed.

Lemma two_jobs_length s name response quantum_device arn :
  length (rows (two_jobs O s name response quantum_device arn)) =
  (length (rows (job_manager s)) + 2)%nat.
Proof. unfold two_jobs; cbn. rewrite !length_app. cbn. lia. Qed.

(** C6: against a device whose record asks for asynchronous processing, the
    call returns the number and the Bell probabilities of the local job, which
    is 'completed' and stores exactly that result, together with the id of a
    second job that is still 'created'; the background coroutine is only
    queued.  The ids drawn for the two jobs are assumed new. *)
Theorem process_quantum_signature_async_reply name response quantum_device s arn nm ty mq :
  let info := get_device_info (device_manager s) quantum_device in
  let id1 := next_job_id O s in
  let id2 := next_job_id O (with_tick (S (S (S (tick s)))) s) in
  info !! "arn" = Some (VStr arn) → info !! "name" = Some nm → info !! "type" = Some ty →
  truthy (dict_get_default info "async_required" (VBool false)) = true →
  get_device_info (device_manager s) "local_simulator" !! "max_qubits" = Some (VInt mq) →
  get_job (job_manager s) id1 = None → get_job (job_manager s) id2 = None → id1 ≠ id2 →
  ∃ qn ent est lres s' lrow drow,
    process_quantum_signature O name response quantum_device s =
      (Ok (Success qn ent id1 id2 nm (Some ty) (Some est) lres None), s') ∧
    r_quantum_number lres = qn ∧ r_entanglement_data lres = ent ∧
    get_job (job_manager s') id1 = Some lrow ∧ status lrow = "completed" ∧
    result_data lrow = SText (json_dumps O lres) ∧
    get_job (job_manager s') id2 = Some drow ∧ status drow = "created" ∧
    is_active (status drow) = true ∧ device_id drow = quantum_device ∧
    pending_tasks s' = pending_tasks s ++ [mk_bg id2 quantum_device name response].
Proof.
  intros info id1 id2 Harn Hnm Hty Hasync Hmq Hf1 Hf2 Hne.
  destruct (process_quantum_signature O name response quantum_device s) as [r s'] eqn:Hrun.
  pose proof (process_quantum_signature_async O name response quantum_device s arn nm ty
                Harn Hnm Hty Hasync (or_intror (ex_intro _ mq Hmq)) Hf1 Hf2 Hne) as Hwp.
  apply (wp_run _ _ _ _ _ Hwp) in Hrun as (qn & ent & ms & ts & est & -> & Hj & Ht & _).
  destruct (two_jobs_local s name response quantum_device arn Hf1) as (row1 & Hr1 & Hs1 & Hdv1).
  destruct (two_jobs_device s name response quantum_device arn Hf2 Hne)
    as (row2 & Hr2 & Hs2 & Hdv2).
  fold id1 in Hr1. fold id2 in Hr2.
  destruct (get_job_update_status _ _ "running" [] _ Hr1) as (ra & Hra & Era & _ & _).
  destruct (get_job_update_status _ _ "completed"
              [("completed_at", SText ts);
               ("result_data", SText (json_dumps O (local_result_of qn ent ms)))] _ Hra)
    as (rb & Hrb & Erb & Hsb & _).
  exists qn, ent, est, (local_result_of qn ent ms), s', rb, row2.
  split_and!; [done | done | done | | done | | | done | | done | done].
  - rewrite Hj. exact Hrb.
  - by subst rb.
  - rewrite Hj. unfold local_done. by rewrite !get_job_update_other.
  - by rewrite Hs2.
Qed.

(** C3, amended: with the local simulator itself as the selected device the
    entry point still creates two jobs.  Whenever the call succeeds the two
    ids it returns differ, both were unknown before, and exactly two rows were
    added; and it does succeed, with both jobs 'completed', once the ids
    drawn are new. *)
Theorem process_quantum_signature_same_backend name response s :
  (∀ qn ent lj dj nm ty est lres dres s',
     process_quantum_signature O name response "local_simulator" s =
       (Ok (Success qn ent lj dj nm ty est lres dres), s') →
     lj ≠ dj ∧ get_job (job_manager s) lj = None ∧ get_job (job_manager s) dj = None ∧
     is_Some (get_job (job_manager s') lj) ∧ is_Some (get_job (job_manager s') dj) ∧
     length (rows (job_manager s')) = (length (rows (job_manager s)) + 2)%nat) ∧
  (∀ arn nm ty mq,
     let info := get_device_info (device_manager s) "local_simulator" in
     let id1 := next_job_id O s in
     let id2 := next_job_id O (with_tick (S (S (S (tick s)))) s) in
     info !! "arn" = Some (VStr arn) → info !! "name" = Some nm → info !! "type" = Some ty →
     info !! "max_qubits" = Some (VInt mq) →
     truthy (dict_get_default info "async_required" (VBool false)) = false →
     get_job (job_manager s) id1 = None → get_job (job_manager s) id2 = None → id1 ≠ id2 →
     ∃ qn ent lres dres s' lrow drow,
       process_quantum_signature O name response "local_simulator" s =
         (Ok (Success qn ent id1 id2 nm None None lres (Some dres)), s') ∧
       get_job (job_manager s') id1 = Some lrow ∧ status lrow = "completed" ∧
       get_job (job_manager s') id2 = Some drow ∧ status drow = "completed").
Proof.
  split.
  - intros qn ent lj dj nm ty est lres dres s' Hrun.
    pose proof (process_quantum_signature_two_rows O name response "local_simulator" s) as Hwp.
    pose proof (wp_run _ _ _ _ _ Hwp Hrun) as Hpost. cbn beta in Hpost.
    destruct (Hpost _ _ _ _ _ _ _ _ _ eq_refl) as (Hne & Hl & Hd & Hlen & Hsl & Hsd).
    by split_and!.
  - intros arn nm ty mq info id1 id2 Harn Hnm Hty Hmq Hasync Hf1 Hf2 Hne.
    destruct (process_quantum_signature O name response "local_simulator" s) as [r s'] eqn:Hrun.
    assert (Hgen : can_generate s "local_simulator") by (right; eauto).
    pose proof (process_quantum_signature_inline O name response "local_simulator" s arn nm ty
                  Harn Hnm Hty Hasync Hgen Hgen Hf1 Hf2 Hne) as Hwp.
    apply (wp_run _ _ _ _ _ Hwp) in Hrun
      as (qn & ent & ms & ts & dqn & dent & dms & dts & -> & Hj & _).
    destruct (two_jobs_local s name response "local_simulator" arn Hf1) as (row1 & Hr1 & _).
    destruct (two_jobs_device s name response "local_simulator" arn Hf2 Hne) as (row2 & Hr2 & _).
    fold id1 in Hr1. fold id2 in Hr2.
    destruct (get_job_update_status _ _ "running" [] _ Hr1) as (ra & Hra & _).
    destruct (get_job_update_status _ _ "completed"
                [("completed_at", SText ts);
                 ("result_data", SText (json_dumps O (local_result_of qn ent ms)))] _ Hra)
      as (rb & Hrb & _ & Hsb & _).
    assert (Hr2' : get_job (local_done O (two_jobs O s name response "local_simulator" arn)
                              id1 ts (local_result_of qn ent ms)) id2 = Some row2).
    { unfold local_done. by rewrite !get_job_update_other. }
    destruct (get_job_update_status _ _ "running" [] _ Hr2') as (rc & Hrc & _).
    destruct (get_job_update_status _ _ "completed"
                [("completed_at", SText dts);
                 ("result_data", SText (json_dumps O (mk_job_result dqn dent nm ty (Some dms))))]
                _ Hrc) as (rd & Hrd & _ & Hsd & _).
    exists qn, ent, (local_result_of qn ent ms), (mk_job_result dqn dent nm ty (Some dms)),
      s', rb, rd.
    split_and!; [done | | done | | done].
    + rewrite Hj. unfold device_done. rewrite !get_job_update_other by done. exact Hrb.
    + rewrite Hj. exact Hrd.
Qed.

End DualTrackClaims.

Section FallbackClaims.

Variable O : oracle.





Lemma wp_state {A} (m : M A) (P : service → Prop) s : wp m (λ _ s', P s') s → P (m s).2.
Proof. intros H. destruct (m s) as [r s'] eqn:E. exact (wp_run _ _ _ _ _ H E). Qed.


End FallbackClaims.

(** ** Concrete runs *)

Section OrchestratorRuns.



(** C3, counterexample: with the local simulator as the selected device the
    reply carries two different job ids and the table holds two rows. *)
Lemma process_quantum_signature_same_backend_two_jobs :
  let out := process_quantum_signature demo_oracle "Alice" "Hello" "local_simulator" svc0 in
  match out.1 with
  | Ok (Success _ _ local_job_id device_job_id _ _ _ _ _) =>
      local_job_id ≠ device_job_id ∧
      length (rows (job_manager svc0)) = 0%nat ∧
      length (rows (job_manager out.2)) = 2%nat
  | _ => False
  end.
Proof. vm_compute. split_and!; [discriminate | reflexivity | reflexivity]. Qed.

(** C3, witness. *)
Lemma process_quantum_signature_same_backend_witness :
  ∃ qn ent lres dres s' lrow drow,
    process_quantum_signature demo_oracle "Alice" "Hello" "local_simulator" svc0 =
      (Ok (Success qn ent (next_job_id demo_oracle svc0)
             (next_job_id demo_oracle (with_tick 3 svc0))
             (VStr "Local Simulator") None None lres (Some dres)), s') ∧
    get_job (job_manager s') (next_job_id demo_oracle svc0) = Some lrow ∧
    status lrow = "completed" ∧
    get_job (job_manager s') (next_job_id demo_oracle (with_tick 3 svc0)) = Some drow ∧
    status drow = "completed".
Proof.
  apply (proj2 (process_quantum_signature_same_backend demo_oracle "Alice" "Hello" svc0)
           "local://simulator" (VStr "Local Simulator") (VStr "simulator") 34).
  - reflexivity.
  - reflexivity.
  - reflexivity.
  - reflexivity.
  - reflexivity.
  - reflexivity.
  - reflexivity.
  - apply (bool_decide_unpack _). vm_compute. exact I.
Defined.

(** C4, counterexample: after the failure for an unknown device the job
    table is still empty: no local job was created before the lookup. *)
Lemma process_quantum_signature_unknown_device_no_job :
  let out := process_quantum_signature demo_oracle "Alice" "Hello" "unknown_device" svc0 in
  out.1 = Ok (Failure "Unknown quantum device: unknown_device") ∧
  rows (job_manager out.2) = [] ∧
  get_job (job_manager out.2) (next_job_id demo_oracle svc0) = None.
Proof. split_and!; by vm_compute. Qed.

(** C4, witness. *)
Lemma process_quantum_signature_unknown_device_witness :
  process_quantum_signature demo_oracle "Alice" "Hello" "unknown_device" svc0 =
    (Ok (Failure ("Unknown quantum device: " +:+ "unknown_device")), svc0).
Proof.
  apply (process_quantum_signature_unknown_device demo_oracle). reflexivity.
Defined.

(** C6, witness: a request for the IonQ device. *)
Lemma process_quantum_signature_async_reply_witness :
  ∃ qn ent est lres s' lrow drow,
    process_quantum_signature demo_oracle "Alice" "Hello" "ionq_forte" svc0 =
      (Ok (Success qn ent (next_job_id demo_oracle svc0)
             (next_job_id demo_oracle (with_tick 3 svc0))
             (VStr "IonQ Forte Enterprise") (Some (VStr "qpu")) (Some est) lres None), s') ∧
    r_quantum_number lres = qn ∧ r_entanglement_data lres = ent ∧
    get_job (job_manager s') (next_job_id demo_oracle svc0) = Some lrow ∧
    status lrow = "completed" ∧
    result_data lrow = SText (json_dumps demo_oracle lres) ∧
    get_job (job_manager s') (next_job_id demo_oracle (with_tick 3 svc0)) = Some drow ∧
    status drow = "created" ∧ is_active (status drow) = true ∧
    device_id drow = "ionq_forte" ∧
    pending_tasks s' =
      pending_tasks svc0 ++
      [mk_bg (next_job_id demo_oracle (with_tick 3 svc0)) "ionq_forte" "Alice" "Hello"].
Proof.
  apply (process_quantum_signature_async_reply demo_oracle "Alice" "Hello" "ionq_forte" svc0
           "arn:aws:braket:us-east-1::device/qpu/ionq/Forte-Enterprise-1"
           (VStr "IonQ Forte Enterprise") (VStr "qpu") 34).
  - reflexivity.
  - reflexivity.
  - reflexivity.
  - reflexivity.
  - reflexivity.
  - reflexivity.
  - reflexivity.
  - apply (bool_decide_unpack _). vm_compute. exact I.
Defined.

(** C7, counterexample: the first call measures 5 and caches it; the second
    call, made when the clock has advanced by 1000 seconds, hits the cache
    and returns 5 again. *)
Lemma cache_hit_returns_identical_value :
  let key := md5 demo_oracle ("local_simulator" +:+ "_" +:+ "Alice:Hello") in
  let first := _generate_quantum_random_number demo_oracle "local_simulator" "Alice:Hello" svc0 in
  let second :=
    _generate_quantum_random_number demo_oracle "local_simulator" "Alice:Hello" first.2 in
  _circuit_cache svc0 !! key = None ∧
  first.1 = Ok 5 ∧ _circuit_cache first.2 !! key = Some 5 ∧
  (time_time demo_oracle (tick svc0) < time_time demo_oracle (tick first.2))%Q ∧
  second.1 = Ok 5 ∧ second.1 = first.1.
Proof. split_and!; by vm_compute. Qed.

(** C7, witness. *)
Lemma _generate_quantum_random_number_cache_hit_witness :
  let t := time_time demo_oracle (tick svc_cached) in
  _generate_quantum_random_number demo_oracle "local_simulator" "Alice:Hello" svc_cached =
    (Ok ((5 + int_of_float t) mod 1000), with_tick (S (tick svc_cached)) svc_cached) ∧
  (0 ≤ 5 < 1000 → ((5 + int_of_float t) mod 1000 = 5 ↔ int_of_float t mod 1000 = 0)).
Proof.
  apply (_generate_quantum_random_number_cache_hit demo_oracle
           "local_simulator" "Alice:Hello" svc_cached 5).
  reflexivity.
Defined.



End OrchestratorRuns.

(** ** Claims about the placement *)

Section PlacementClaims.

Local Open Scope Q_scope.

Variable prng : Z → nat → Q.
Variables cos sin : Q → Q.

Lemma clamp_bounds extent v :
  extent <= 76 → 12 <= clamp extent v ∧ clamp extent v <= 88 - extent.
Proof.
  intros He. unfold clamp.
  destruct (py_max_spec 12 (py_min (88 - extent) v)) as (H1 & H2 & [E|E]);
    destruct (py_min_spec (88 - extent) v) as (H3 & H4 & _).
  - rewrite E. split; lra.
  - rewrite E in *. split; lra.
Qed.

(** In each of the five density bands the effective footprint is positive
    and leaves room inside the band. *)
Lemma layout_for_extent n :
  0 < effective_width_pct (layout_for n) ∧ effective_width_pct (layout_for n) <= 76 ∧
  0 < effective_height_pct (layout_for n) ∧ effective_height_pct (layout_for n) <= 76.
Proof.
  unfold layout_for, card_dimensions.
  repeat match goal with |- context [(?a <=? ?b)%Z] => destruct (a <=? b)%Z end;
    cbn [effective_width_pct effective_height_pct];
    split_and!; by vm_compute.
Qed.

Lemma collision_found_false lay x y existing :
  collision_found lay x y existing = false ↔
  Forall (λ e, collides lay x y e = false) existing.
Proof.
  unfold collision_found. induction existing as [|e l IH]; cbn.
  - split; [constructor | done].
  - rewrite orb_false_iff, IH. split.
    + intros [H1 H2]. by constructor.
    + intros H. by inversion H.
Qed.

(** A position accepted by the search is a clamped candidate that collides
    with no existing card. *)
Lemma search_sound lay reg seed existing attempts draws q :
  search prng lay reg seed existing attempts draws = Some q →
  (∃ cx cy, q = (clamp (effective_width_pct lay) cx, clamp (effective_height_pct lay) cy)) ∧
  Forall (λ e, collides lay q.1 q.2 e = false) existing.
Proof.
  revert draws. induction attempts as [|attempt rest IH]; intros draws; cbn; [done|].
  destruct (propose prng lay reg seed attempt draws) as [[[cx cy]|] draws'].
  - destruct (collision_found _ _ _ existing) eqn:Hc; [apply IH|].
    intros [= <-]. split; [eauto|]. by apply collision_found_false.
  - apply IH.
Qed.

Lemma _generate_center_spiral_position_bounds count ew eh :
  ew <= 76 → eh <= 76 →
  let p := _generate_center_spiral_position cos sin count ew eh in
  12 <= p.1 ∧ p.1 <= 88 - ew ∧ 12 <= p.2 ∧ p.2 <= 88 - eh.
Proof.
  intros Hw Hh. unfold _generate_center_spiral_position. cbn [fst snd].
  destruct (clamp_bounds ew (50 + (8 + inject_Z (Z.of_nat count) * 2.5)
                                  * cos (inject_Z (Z.of_nat count) * 0.8)) Hw).
  destruct (clamp_bounds eh (50 + (8 + inject_Z (Z.of_nat count) * 2.5)
                                  * sin (inject_Z (Z.of_nat count) * 0.8)) Hh).
  by split_and!.
Qed.

(** C5, amended: every returned position, spiral fallback included, has
    both coordinates in [12, 88], more precisely between 12 and 88 minus the
    effective extent; and a position accepted by the candidate search collides
    with no existing card under the collision test of the new card.  Nothing
    is stated about collisions of a position produced by the fallback. *)
Theorem _generate_collision_free_position_band existing device_id quantum_number :
  let lay := layout_for (Z.of_nat (length existing) + 1) in
  let p := _generate_collision_free_position prng cos sin existing device_id quantum_number in
  in_band p ∧
  p.1 <= 88 - effective_width_pct lay ∧ p.2 <= 88 - effective_height_pct lay ∧
  (∀ q, search prng lay (device_region device_id) quantum_number existing
          (seq 0 max_attempts) 0 = Some q →
        p = q ∧ Forall (λ e, collides lay q.1 q.2 e = false) existing).
Proof.
  intros lay p.
  destruct (layout_for_extent (Z.of_nat (length existing) + 1)) as (Hw0 & Hw & Hh0 & Hh).
  fold lay in Hw0, Hw, Hh0, Hh.
  assert (Hb : 12 <= p.1 ∧ p.1 <= 88 - effective_width_pct lay ∧
               12 <= p.2 ∧ p.2 <= 88 - effective_height_pct lay).
  { unfold p, _generate_collision_free_position. fold lay.
    destruct (search prng lay _ _ existing _ 0) as [q|] eqn:Hs.
    - destruct (search_sound _ _ _ _ _ _ _ Hs) as [(cx & cy & ->) _]. cbn [fst snd].
      destruct (clamp_bounds (effective_width_pct lay) cx Hw).
      destruct (clamp_bounds (effective_height_pct lay) cy Hh). by split_and!.
    - by apply _generate_center_spiral_position_bounds. }
  destruct Hb as (H1 & H2 & H3 & H4). split_and!.
  - unfold in_band. split_and!; lra.
  - done.
  - done.
  - intros q Hs. split.
    + unfold p, _generate_collision_free_position. fold lay. by rewrite Hs.
    + by destruct (search_sound _ _ _ _ _ _ _ Hs).
Qed.

End PlacementClaims.

Section PlacementRuns.

Local Open Scope Q_scope.

(** C5, witness: one card far in the corner, a new card for the QuEra
    region: the first grid candidate is accepted. *)
Lemma _generate_collision_free_position_band_witness :
  ∃ q, search rng_half (layout_for 2) (device_region "quera_aquila") 7
         [mk_signature 80 80] (seq 0 max_attempts) 0 = Some q ∧
       _generate_collision_free_position rng_half cos_taylor sin_taylor
         [mk_signature 80 80] "quera_aquila" 7 = q ∧
       Forall (λ e, collides (layout_for 2) q.1 q.2 e = false) [mk_signature 80 80].
Proof.
  eexists. split; [vm_compute; reflexivity|].
  apply (proj2 (proj2 (proj2 (_generate_collision_free_position_band
           rng_half cos_taylor sin_taylor [mk_signature 80 80] "quera_aquila" 7)))).
  vm_compute; reflexivity.
Defined.

(** For the local simulator's region no candidate fits while the wall holds
    fewer than four cards: every attempt is skipped, whatever the draws. *)
Lemma search_local_simulator_skips prng seed existing n :
  (1 <= n <= 4)%Z →
  search prng (layout_for n) (device_region "local_simulator") seed existing
    (seq 0 max_attempts) 0 = None.
Proof.
  intros Hn.
  assert (Hlay : layout_for n = layout_for 1).
  { unfold layout_for, card_dimensions.
    destruct (n <=? 4)%Z eqn:E; [reflexivity | apply Z.leb_gt in E; lia]. }
  rewrite Hlay. by vm_compute.
Qed.

(** C5, counterexample: the first two cards placed for the local simulator
    both come from the spiral fallback and overlap. *)
Lemma first_two_cards_overlap :
  match place_all rng_half cos_taylor sin_taylor []
          [("local_simulator", 7%Z); ("local_simulator", 8%Z)] with
  | [second; first] =>
      in_band (position_x first, position_y first) ∧
      in_band (position_x second, position_y second) ∧
      overlapping (layout_for 2) second first = true
  | _ => False
  end.
Proof. vm_compute. split_and!; first [discriminate | reflexivity]. Qed.

Lemma clamp_between e v lo hi :
  lo <= v → v <= hi → 12 <= lo → lo <= 88 - e →
  lo <= clamp e v ∧ clamp e v <= hi.
Proof.
  intros Hlo Hhi H12 He. unfold clamp.
  destruct (py_min_spec (88 - e) v) as (M1 & M2 & [M|M]);
    destruct (py_max_spec 12 (py_min (88 - e) v)) as (X1 & X2 & [X|X]);
    rewrite X in *; rewrite ?M in *; split; lra.
Qed.

Lemma Qabs_py_lt d b : - b < d → d < b → Qltb (Qabs_py d) b = true.
Proof.
  intros H1 H2. apply Qltb_lt. unfold Qabs_py.
  destruct (Qltb d 0) eqn:E; lra.
Qed.

(** The overlap does not depend on the draws nor on the exact values of the
    trigonometric functions, only on their range. *)
Lemma first_two_cards_overlap_always prng cos sin seed1 seed2 :
  (∀ x, -1 <= cos x ∧ cos x <= 1) → (∀ x, -1 <= sin x ∧ sin x <= 1) →
  ∃ first second,
    place_all prng cos sin [] [("local_simulator", seed1); ("local_simulator", seed2)] =
      [second; first] ∧
    overlapping (layout_for 2) second first = true.
Proof.
  intros Hcos Hsin. cbn [place_all].
  unfold _generate_collision_free_position at 1. cbn [length].
  rewrite search_local_simulator_skips by lia.
  destruct (_generate_center_spiral_position cos sin 0 _ _) as [x1 y1] eqn:E1.
  unfold _generate_collision_free_position. cbn [length].
  rewrite search_local_simulator_skips by lia.
  destruct (_generate_center_spiral_position cos sin 1 _ _) as [x2 y2] eqn:E2.
  eexists _, _. split; [reflexivity|].
  unfold _generate_center_spiral_position in E1, E2.
  injection E1 as <- <-. injection E2 as <- <-.
  change (inject_Z (Z.of_nat 0)) with 0. change (inject_Z (Z.of_nat 1)) with 1.
  destruct (Hcos (0 * 0.8)) as [Hc0 Hc0'], (Hsin (0 * 0.8)) as [Hs0 Hs0'].
  destruct (Hcos (1 * 0.8)) as [Hc1 Hc1'], (Hsin (1 * 0.8)) as [Hs1 Hs1'].
  set (c0 := cos (0 * 0.8)) in *. set (s0 := sin (0 * 0.8)) in *.
  set (c1 := cos (1 * 0.8)) in *. set (s1 := sin (1 * 0.8)) in *.
  set (ew := effective_width_pct (layout_for (Z.of_nat 0 + 1))).
  set (eh := effective_height_pct (layout_for (Z.of_nat 0 + 1))).
  change (effective_width_pct (layout_for (Z.of_nat 1 + 1))) with ew.
  change (effective_height_pct (layout_for (Z.of_nat 1 + 1))) with eh.
  assert (Hew : ew <= 46) by (by vm_compute).
  assert (Heh : eh <= 46) by (by vm_compute).
  destruct (clamp_between ew (50 + (8 + 0 * 2.5) * c0) 42 58) as [X1 X1']; try lra.
  destruct (clamp_between eh (50 + (8 + 0 * 2.5) * s0) 42 58) as [Y1 Y1']; try lra.
  destruct (clamp_between ew (50 + (8 + 1 * 2.5) * c1) 39 61) as [X2 X2']; try lra.
  destruct (clamp_between eh (50 + (8 + 1 * 2.5) * s1) 39 61) as [Y2 Y2']; try lra.
  unfold overlapping, collides. cbn [position_x position_y].
  assert (Hw : 20 < effective_width_pct (layout_for 2) + spacing_pct (layout_for 2))
    by (by vm_compute).
  assert (Hh : 20 < effective_height_pct (layout_for 2) + spacing_pct (layout_for 2))
    by (by vm_compute).
  repeat match goal with
         | |- context [clamp ?e (50 + (8 + 1 * 2.5) * c1)] =>
             progress change e with ew
         | |- context [clamp ?e (50 + (8 + 1 * 2.5) * s1)] =>
             progress change e with eh
         end.
  apply andb_true_intro. split; apply Qabs_py_lt; lra.
Qed.

End PlacementRuns.

(** ** Claims about the visual properties *)

Section VisualClaims.

Variable O : oracle.
Variable prng : Z → nat → Q.
Variables cos sin : Q → Q.


End VisualClaims.

Section VisualRuns.



End VisualRuns.

(** * Further properties of the modelled code *)

(** ** The job table: insertion, lookup, listings and reports *)

Section JobTableProperties.

Lemma create_job_fresh st now token ts device_id device_arn user_name user_message :
  get_job st (new_job_id now token) = None →
  create_job st now token ts device_id device_arn user_name user_message =
    (Ok (new_job_id now token),
     mk_store (rows st ++ [fresh_row st (new_job_id now token) ts device_id device_arn
                             user_name user_message])
       (last_rowid st + 1)).
Proof. intros H. unfold create_job. by rewrite H. Qed.

(** X1: an INSERT followed by a lookup.  When the generated id is new,
    [create_job] returns it and [get_job] then finds a row in status
    'created' carrying the given device and user columns, with every optional
    column NULL; every other id is looked up as before.  When the id is
    already taken the call raises and the table is unchanged. *)
Theorem create_job_then_get_job st now token ts device_id device_arn user_name user_message :
  let jid := new_job_id now token in
  let out := create_job st now token ts device_id device_arn user_name user_message in
  match get_job st jid with
  | Some _ => out = (Raise (IntegrityError "UNIQUE constraint failed: quantum_jobs.job_id"), st)
  | None =>
      out.1 = Ok jid ∧
      get_job out.2 jid =
        Some (mk_row (last_rowid st + 1) jid SNull device_id device_arn user_name
                user_message "created" (SText ts) SNull SNull SNull SNull SNull) ∧
      (∀ jid', jid' ≠ jid → get_job out.2 jid' = get_job st jid') ∧
      length (rows out.2) = S (length (rows st))
  end.
Proof.
  intros jid out. unfold out. destruct (get_job st jid) as [r|] eqn:Hr.
  - unfold create_job. fold jid. by rewrite Hr.
  - rewrite create_job_fresh by done. fold jid. cbn [fst snd]. split_and!.
    + done.
    + rewrite get_job_snoc, Hr. cbn [fresh_row job_id]. by rewrite bool_decide_true.
    + intros jid' Hne. rewrite get_job_snoc. cbn [fresh_row job_id].
      destruct (get_job st jid'); [done|]. by rewrite bool_decide_false.
    + cbn [rows]. rewrite length_app. cbn. lia.
Qed.

End JobTableProperties.

Lemma job_ids_update st jid s kwargs :
  job_id <$> rows (update_job_status st jid s kwargs) = job_id <$> rows st.
Proof.
  unfold update_job_status, sql_update; cbn. rewrite <- list_fmap_compose.
  apply list_fmap_ext. intros i r _. cbn.
  destruct (bool_decide (job_id r = jid)); [apply apply_set_job_id | done].
Qed.

Lemma get_job_None_iff st jid : get_job st jid = None ↔ jid ∉ job_id <$> rows st.
Proof.
  split.
  - intros Hn Hin. apply list_elem_of_fmap in Hin as (r & -> & Hr).
    by apply (get_job_None st (job_id r) r Hn Hr).
  - intros Hn. unfold get_job. destruct (find _ _) as [r|] eqn:Hf; [|done].
    apply find_some in Hf as [Hin Hid]. apply bool_decide_eq_true in Hid.
    exfalso. apply Hn. apply list_elem_of_fmap. exists r.
    split; [done | by apply list_elem_of_In].
Qed.

Lemma unique_ids_update st jid s kwargs :
  unique_ids st → unique_ids (update_job_status st jid s kwargs).
Proof. unfold unique_ids. by rewrite job_ids_update. Qed.

Lemma unique_ids_appended st st' row :
  unique_ids st → rows st' = rows st ++ [row] → get_job st (job_id row) = None →
  unique_ids st'.
Proof.
  unfold unique_ids. intros Hu -> Hn. rewrite fmap_app. cbn.
  apply NoDup_app. split_and!; [done | | apply NoDup_singleton].
  intros x Hx Hx'. apply list_elem_of_singleton in Hx' as ->.
  by apply get_job_None_iff in Hn.
Qed.

Ltac wp_helper :=
  first
    [ eapply wp_mono; [apply _generate_quantum_random_number_frame|]
    | eapply wp_mono; [apply weaken_total_frame, _create_bell_state_circuit_spec|]
    | eapply wp_mono; [apply _estimate_completion_time_frame|] ];
  let r := fresh "r" in
  let s' := fresh "s" in
  let Hfr := fresh "Hfr" in
  intros r s' Hfr.

Ltac follow_jobs :=
  repeat match goal with
         | H : frame _ _ |- _ =>
             unfold frame in H; norm; destruct H as (_ & ? & _ & _ & _)
         end;
  repeat match goal with
         | H : job_manager ?x = _ |- _ => rewrite H; clear H
         end.

Section UniqueIds.

Variable O : oracle.

Lemma create_job_m_unique device_id device_arn user_name user_message s :
  unique_ids (job_manager s) →
  wp (create_job_m O device_id device_arn user_name user_message)
    (λ _ s', unique_ids (job_manager s')) s.
Proof.
  intros Hu. eapply wp_mono; [apply create_job_m_cases|].
  intros [jid|e] s' (_ & _ & _ & Hc).
  - destruct Hc as (_ & Hn & row & Hid & _ & Hrows).
    eapply unique_ids_appended; [exact Hu | exact Hrows | by rewrite Hid].
  - by rewrite Hc.
Qed.

Lemma process_quantum_signature_unique name response quantum_device s :
  unique_ids (job_manager s) →
  wp (process_quantum_signature O name response quantum_device)
    (λ _ s', unique_ids (job_manager s')) s.
Proof.
  intros Hu. unfold process_quantum_signature. do 4 wp_step.
  { by wp_step. }
  wp_step. eapply wp_mono; [by apply create_job_m_unique|].
  intros [lj|e] s1 Hu1; [|by wp_step].
  wp_step. wp_step. wp_step; [|by wp_step].
  wp_step. eapply wp_mono; [by apply create_job_m_unique|].
  intros [dj|e] s2 Hu2; [|by wp_step].
  unfold update_job_status_m, create_task.
  repeat first [ wp_step; norm | wp_helper ].
  all: follow_jobs.
  all: repeat apply unique_ids_update; done.
Qed.

Lemma run_task_unique t s :
  unique_ids (job_manager s) →
  wp (run_task O t) (λ _ s', unique_ids (job_manager s')) s.
Proof.
  intros Hu.
  unfold run_task, _process_quantum_job_for_signature, _simulate_quantum_processing,
    update_job_status_m, _update_signature_with_device_results.
  repeat first [ wp_step; norm | wp_helper ].
  all: follow_jobs.
  all: repeat apply unique_ids_update; done.
Qed.

(** X2: job ids stay unique.  The empty table has distinct job ids, and
    [create_job], [update_job_status], [clear_all_jobs], the entry point and
    the background task all keep them distinct; a lookup by id is then
    unambiguous: it finds the one row carrying that id. *)
Theorem job_ids_stay_unique s :
  unique_ids empty_store ∧
  (unique_ids (job_manager s) →
   (∀ now token ts device_id device_arn user_name user_message,
      unique_ids (create_job (job_manager s) now token ts device_id device_arn
                    user_name user_message).2) ∧
   (∀ jid status kwargs, unique_ids (update_job_status (job_manager s) jid status kwargs)) ∧
   unique_ids (clear_all_jobs (job_manager s)).2 ∧
   (∀ name response quantum_device,
      unique_ids (job_manager (process_quantum_signature O name response quantum_device s).2)) ∧
   (∀ t, unique_ids (job_manager (run_task O t s).2)) ∧
   (∀ r, r ∈ rows (job_manager s) → get_job (job_manager s) (job_id r) = Some r)).
Proof.
  split; [constructor|]. intros Hu. split_and!.
  - intros. unfold create_job.
    destruct (get_job (job_manager s) (new_job_id now token)) eqn:Hn; [done|].
    cbn [snd]. eapply unique_ids_appended; [exact Hu | reflexivity | done].
  - intros. by apply unique_ids_update.
  - constructor.
  - intros. apply (wp_state _ (λ s', unique_ids (job_manager s'))).
    by apply process_quantum_signature_unique.
  - intros. apply (wp_state _ (λ s', unique_ids (job_manager s'))).
    by apply run_task_unique.
  - intros r Hr. unfold unique_ids in Hu. unfold get_job.
    induction (rows (job_manager s)) as [|x l IH]; [by apply elem_of_nil in Hr|].
    cbn in Hu |- *. apply NoDup_cons in Hu as [Hx Hl].
    apply elem_of_cons in Hr as [->|Hr]; [by rewrite bool_decide_true|].
    rewrite bool_decide_false; [by apply IH|].
    intros Heq. apply Hx. rewrite Heq. apply list_elem_of_fmap. eauto.
Qed.

End UniqueIds.

(** X2, witness: the table with one running job and another user's job. *)
Lemma job_ids_stay_unique_witness :
  unique_ids (update_job_status (job_manager svc_running) "qjob_1700000000_ab12"
                "completed" []) ∧
  unique_ids (job_manager
                (process_quantum_signature demo_oracle "Alice" "Hello" "ionq_forte"
                   svc_running).2) ∧
  get_job (job_manager svc_running) (job_id other_row) = Some other_row.
Proof.
  assert (Hu : unique_ids (job_manager svc_running)).
  { apply (bool_decide_unpack _). by vm_compute. }
  destruct (proj2 (job_ids_stay_unique demo_oracle svc_running) Hu)
    as (_ & Hupd & _ & Hproc & _ & Hget).
  split_and!.
  - apply Hupd.
  - apply Hproc.
  - apply Hget. cbn. apply elem_of_cons; right. apply elem_of_cons; by left.
Defined.

Section Listings.

Lemma sql_leb_total a b : sql_leb a b = true ∨ sql_leb b a = true.
Proof.
  destruct a as [|x|x], b as [|y|y]; cbn; auto.
  - destruct (Z.leb_spec x y); [by left|]. right. apply Z.leb_le. lia.
  - apply String.leb_total.
Qed.

#[local] Instance created_le_total : Total created_le.
Proof. intros r1 r2. unfold created_le. apply sql_leb_total. Qed.

#[local] Instance created_ge_total : Total created_ge.
Proof. intros r1 r2. unfold created_ge, created_le. apply sql_leb_total. Qed.

Lemma elem_of_filter_rows (p : job_row → bool) (l : list job_row) r :
  r ∈ List.filter p l ↔ r ∈ l ∧ p r = true.
Proof. rewrite !list_elem_of_In. apply filter_In. Qed.

(** X3: [get_pending_jobs] lists exactly the rows whose status is
    'created', 'submitted' or 'running', each as often as it is stored, in
    ascending order of [created_at]; once a job is updated to 'completed' or
    'failed' no row with its id is listed any more. *)
Theorem get_pending_jobs_active_sorted st :
  get_pending_jobs st ≡ₚ List.filter (λ r, is_active (status r)) (rows st) ∧
  Sorted created_le (get_pending_jobs st) ∧
  (∀ r, r ∈ get_pending_jobs st ↔
        r ∈ rows st ∧ status r ∈ ["created"; "submitted"; "running"]) ∧
  (∀ jid s kwargs r,
     is_terminal s = true →
     r ∈ get_pending_jobs (update_job_status st jid s kwargs) → job_id r ≠ jid).
Proof.
  assert (Hperm : ∀ st', get_pending_jobs st' ≡ₚ
                         List.filter (λ r, is_active (status r)) (rows st'))
    by (intros; apply merge_sort_Permutation).
  assert (Hmem : ∀ st' r, r ∈ get_pending_jobs st' ↔
                          r ∈ rows st' ∧ status r ∈ ["created"; "submitted"; "running"]).
  { intros st' r. rewrite (Hperm st'), elem_of_filter_rows. unfold is_active.
    by rewrite bool_decide_eq_true. }
  split_and!; [apply Hperm | apply Sorted_merge_sort; apply _ | apply Hmem |].
  intros jid s kwargs r Hterm Hin Hid.
  apply Hmem in Hin as [Hin Hact].
  unfold update_job_status, sql_update in Hin. cbn in Hin.
  apply list_elem_of_fmap in Hin as (r0 & -> & Hr0).
  destruct (bool_decide (job_id r0 = jid)) eqn:Hb.
  - rewrite apply_set_status in Hact. unfold is_terminal in Hterm.
    apply orb_true_iff in Hterm as [Ht|Ht]; apply bool_decide_eq_true in Ht; subst s;
      revert Hact; apply (bool_decide_unpack _); by vm_compute.
  - apply bool_decide_eq_false in Hb. done.
Qed.

(** X3, witness: the running job is completed. *)
Lemma get_pending_jobs_active_sorted_witness :
  Forall (λ r, job_id r ≠ "qjob_1700000000_ab12")
    (get_pending_jobs
       (update_job_status running_store "qjob_1700000000_ab12" "completed" [])).
Proof.
  apply Forall_forall. intros r.
  apply (proj2 (proj2 (proj2 (get_pending_jobs_active_sorted running_store)))
           "qjob_1700000000_ab12" "completed" [] r).
  reflexivity.
Defined.

Lemma Sorted_take {A} (R : relation A) (l : list A) n : Sorted R l → Sorted R (take n l).
Proof.
  intros Hs. revert n. induction Hs as [|x l Hs IH Hhd]; intros [|n]; cbn;
    try constructor.
  - apply IH.
  - destruct Hhd as [|y l' Hxy]; destruct n; cbn; by constructor.
Qed.

(** X4: [get_recent_jobs(limit)] returns stored rows only, newest first, at
    most [limit] of them for a limit that is not negative, and all of them
    (a permutation of the table) when the limit is negative or at least the
    number of rows. *)
Theorem get_recent_jobs_bounded st limit :
  Sorted created_ge (get_recent_jobs st limit) ∧
  (∀ r, r ∈ get_recent_jobs st limit → r ∈ rows st) ∧
  (0 <= limit → Z.of_nat (length (get_recent_jobs st limit)) =
                Z.min limit (Z.of_nat (length (rows st)))) ∧
  (limit < 0 ∨ Z.of_nat (length (rows st)) <= limit →
   get_recent_jobs st limit ≡ₚ rows st).
Proof.
  unfold get_recent_jobs. cbn zeta.
  pose proof (merge_sort_Permutation created_ge (rows st)) as Hperm.
  pose proof (Sorted_merge_sort created_ge (rows st)) as Hsorted.
  assert (Hlen : length (merge_sort created_ge (rows st)) = length (rows st))
    by (by rewrite Hperm).
  split_and!.
  - destruct (limit <? 0); [done | by apply Sorted_take].
  - intros r. destruct (limit <? 0).
    + by rewrite Hperm.
    + intros Hin. apply elem_of_take in Hin as (i & Hi & _).
      rewrite <- Hperm. by eapply list_elem_of_lookup_2.
  - intros Hl. destruct (Z.ltb_spec limit 0); [lia|].
    rewrite length_take, Hlen. lia.
  - intros [Hl|Hl].
    + destruct (Z.ltb_spec limit 0); [done | lia].
    + destruct (Z.ltb_spec limit 0); [done|].
      rewrite take_ge; [done|]. rewrite Hlen. lia.
Qed.

(** X4, witness: the two newest of two rows. *)
Lemma get_recent_jobs_bounded_witness :
  Z.of_nat (length (get_recent_jobs running_store 1)) =
    Z.min 1 (Z.of_nat (length (rows running_store))) ∧
  get_recent_jobs running_store 20 ≡ₚ rows running_store.
Proof.
  split.
  - apply (proj1 (proj2 (proj2 (get_recent_jobs_bounded running_store 1)))). lia.
  - apply (proj2 (proj2 (proj2 (get_recent_jobs_bounded running_store 20)))).
    right. cbn. lia.
Defined.

End Listings.

Section Reports.

Variable julianday : sqlval → option Q.
Variable format_1f : Q → string.

Lemma count_status_cons p r l :
  JobReports.count_status p (r :: l) =
  (if p (status r) then 1 else 0) + JobReports.count_status p l.
Proof.
  unfold JobReports.count_status. cbn. destruct (p (status r)); cbn [length]; lia.
Qed.

Lemma count_status_app p l1 l2 :
  JobReports.count_status p (l1 ++ l2) =
  JobReports.count_status p l1 + JobReports.count_status p l2.
Proof.
  induction l1 as [|r l IH]; [done|]. cbn [app]. rewrite !count_status_cons, IH. lia.
Qed.

Lemma count_status_nonneg p l : 0 <= JobReports.count_status p l.
Proof. unfold JobReports.count_status. lia. Qed.

Lemma status_classes s :
  (if is_active s then 1 else 0) + (if bool_decide (s = "completed") then 1 else 0) +
  (if bool_decide (s = "failed") then 1 else 0) = (if known_status s then 1 else 0).
Proof.
  unfold known_status, is_terminal, is_active.
  destruct (bool_decide (s = "completed")) eqn:E1.
  { apply bool_decide_eq_true in E1. by subst s. }
  destruct (bool_decide (s = "failed")) eqn:E2.
  { apply bool_decide_eq_true in E2. by subst s. }
  cbn. destruct (bool_decide (s ∈ _)); reflexivity.
Qed.

(** X5: the counters of [get_job_stats] split the table.  They are not
    negative, [active] is the number of jobs [get_pending_jobs] lists, the
    three add up to the number of rows whose status is one of the five the
    service writes (so to the size of the table when no other status is
    stored), the average duration reads "N/A" while no job is completed, and
    inserting a job raises [active] by one and leaves the other two alone. *)
Theorem get_job_stats_partition st :
  let stats := JobReports.get_job_stats julianday format_1f st in
  0 <= JobReports.active stats ∧ 0 <= JobReports.completed stats ∧
  0 <= JobReports.failed stats ∧
  JobReports.active stats = Z.of_nat (length (get_pending_jobs st)) ∧
  JobReports.active stats + JobReports.completed stats + JobReports.failed stats =
    JobReports.count_status known_status (rows st) ∧
  (Forall (λ r, known_status (status r) = true) (rows st) →
   JobReports.active stats + JobReports.completed stats + JobReports.failed stats =
     Z.of_nat (length (rows st))) ∧
  (JobReports.completed stats = 0 → JobReports.avg_duration stats = "N/A") ∧
  (∀ now token ts device_id device_arn user_name user_message,
     get_job st (new_job_id now token) = None →
     let stats' := JobReports.get_job_stats julianday format_1f
                     (create_job st now token ts device_id device_arn
                        user_name user_message).2 in
     JobReports.active stats' = JobReports.active stats + 1 ∧
     JobReports.completed stats' = JobReports.completed stats ∧
     JobReports.failed stats' = JobReports.failed stats).
Proof.
  cbn zeta. unfold JobReports.get_job_stats. cbn [JobReports.active JobReports.completed
    JobReports.failed JobReports.avg_duration].
  assert (Hsum : ∀ l,
            JobReports.count_status is_active l +
            JobReports.count_status (λ s, bool_decide (s = "completed")) l +
            JobReports.count_status (λ s, bool_decide (s = "failed")) l =
            JobReports.count_status known_status l).
  { induction l as [|r l IH]; [done|]. rewrite !count_status_cons.
    pose proof (status_classes (status r)). lia. }
  split_and!; try apply count_status_nonneg.
  - unfold get_pending_jobs, JobReports.count_status.
    by rewrite merge_sort_Permutation.
  - apply Hsum.
  - intros Hall. rewrite Hsum. unfold JobReports.count_status. f_equal. f_equal.
    induction Hall as [|r l Hr _ IH]; [done|]. cbn. by rewrite Hr, IH.
  - intros Hzero.
    assert (Hnone : omap (JobReports.duration_minutes julianday) (rows st) = []).
    { unfold JobReports.count_status in Hzero.
      induction (rows st) as [|r l IH]; [done|]. cbn in Hzero |- *.
      unfold JobReports.duration_minutes at 1.
      destruct (bool_decide (status r = "completed")); cbn in Hzero |- *; [lia|].
      by apply IH. }
    by rewrite Hnone.
  - intros now token ts device_id device_arn user_name user_message Hfresh.
    rewrite create_job_fresh by done. cbn [snd rows].
    rewrite !count_status_app, !count_status_cons. cbn [fresh_row status].
    change (is_active "created") with true.
    change (bool_decide ("created" = "completed")) with false.
    change (bool_decide ("created" = "failed")) with false.
    change (JobReports.count_status _ []) with 0. cbn iota. lia.
Qed.

End Reports.

(** X5, witness: a table of known statuses, none of them completed. *)
Lemma get_job_stats_partition_witness :
  JobReports.active (JobReports.get_job_stats (λ _, None) (λ _, "0.0") running_store) +
  JobReports.completed (JobReports.get_job_stats (λ _, None) (λ _, "0.0") running_store) +
  JobReports.failed (JobReports.get_job_stats (λ _, None) (λ _, "0.0") running_store) =
    Z.of_nat (length (rows running_store)) ∧
  JobReports.avg_duration
    (JobReports.get_job_stats (λ _, None) (λ _, "0.0") running_store) = "N/A" ∧
  JobReports.active
    (JobReports.get_job_stats (λ _, None) (λ _, "0.0")
       (create_job running_store 1700000009 "ef56" "2024-01-01 00:00:09"
          "aws_sv1" "arn" "Carol" "Hey").2) =
    JobReports.active
      (JobReports.get_job_stats (λ _, None) (λ _, "0.0") running_store) + 1.
Proof.
  destruct (get_job_stats_partition (λ _, None) (λ _, "0.0") running_store)
    as (_ & _ & _ & _ & _ & Hall & Hna & Hins).
  split_and!.
  - apply Hall. repeat constructor.
  - apply Hna. reflexivity.
  - apply (Hins 1700000009 "ef56" "2024-01-01 00:00:09" "aws_sv1" "arn" "Carol" "Hey").
    reflexivity.
Defined.

(** ** The device catalogue *)

Section CatalogueProperties.

(** X6: when every record carries a ['type'], [get_device_by_type] returns
    one fresh record per device of that type, in catalogue order: the stored
    record with its id added under ['id'].  A record without ['type'] makes the call raise [KeyError]. *)
Theorem get_device_by_type_copies devices device_type :
  (Forall (λ kd, is_Some (kd.2 !! "type")) devices →
   get_device_by_type devices device_type =
     Ok (map (λ kd, <["id" := VStr kd.1]> kd.2)
           (List.filter (λ kd, str_equal (default VNone (kd.2 !! "type")) device_type)
              devices))) ∧
  (Exists (λ kd, kd.2 !! "type" = None) devices →
   get_device_by_type devices device_type = Raise (KeyError "type")).
Proof.
  split.
  - induction 1 as [|[k d] rest [ty Hty] _ IH]; [done|].
    cbn [get_device_by_type List.filter map snd fst] in *. rewrite Hty, IH. cbn.
    by destruct (str_equal ty device_type).
  - induction devices as [|[k d] rest IH]; intros Hex; [by inversion Hex|].
    cbn [get_device_by_type]. destruct (d !! "type") as [ty|] eqn:Hty; [|done].
    apply Exists_cons in Hex as [Hex|Hex]; [cbn in Hex; congruence|].
    by rewrite (IH Hex).
Qed.

(** X6, witness: the processors of the built-in catalogue. *)
Lemma get_device_by_type_copies_witness :
  get_device_by_type devices0 "qpu" =
    Ok (map (λ kd, <["id" := VStr kd.1]> kd.2)
          (List.filter (λ kd, str_equal (default VNone (kd.2 !! "type")) "qpu") devices0)) ∧
  get_device_by_type (("broken", ∅) :: devices0) "qpu" = Raise (KeyError "type").
Proof.
  split.
  - apply (proj1 (get_device_by_type_copies devices0 "qpu")).
    repeat constructor; by eexists.
  - apply (proj2 (get_device_by_type_copies (("broken", ∅) :: devices0) "qpu")).
    by left.
Defined.

Lemma mark_twice (info : device_info) (st st' : string) (c c' : bool) :
  <["aws_configured" := VBool c]> (<["status" := VStr st]>
    (<["aws_configured" := VBool c']> (<["status" := VStr st']> info))) =
  <["aws_configured" := VBool c]> (<["status" := VStr st]> info).
Proof.
  apply map_eq. intros k.
  destruct (decide (k = "aws_configured")) as [->|H1].
  { by rewrite !lookup_insert_eq. }
  rewrite !(lookup_insert_ne _ "aws_configured") by done.
  destruct (decide (k = "status")) as [->|H2].
  { by rewrite !lookup_insert_eq. }
  by rewrite !lookup_insert_ne.
Qed.

Lemma annotate_again s device_id info info' :
  annotate s device_id info = Ok info' → annotate s device_id info' = Ok info'.
Proof.
  unfold annotate.
  destruct (bool_decide (device_id = "local_simulator")).
  { intros Heq. injection Heq as Heq. subst info'. by rewrite mark_twice. }
  destruct (_aws_session s && bool_decide (device_id ∈ _aws_devices s)).
  { intros Heq. injection Heq as Heq. subst info'. by rewrite mark_twice. }
  destruct (str_field info "arn") as [arn|e] eqn:Harn; [|done].
  assert (Hkeep : ∀ st c,
            str_field (<["aws_configured" := VBool c]> (<["status" := VStr st]> info)) "arn" =
            Ok arn).
  { intros st c. unfold str_field, dict_get in *. by rewrite !lookup_insert_ne. }
  destruct (is_prefix "arn:aws:braket" arn) eqn:Hp; intros Heq; injection Heq as Heq;
    subst info'; rewrite Hkeep, Hp; by rewrite mark_twice.
Qed.

Lemma annotate_all_again s devices r devices' :
  annotate_all s devices = (r, devices') → annotate_all s devices' = (r, devices').
Proof.
  revert r devices'. induction devices as [|[k info] rest IH]; intros r devices' Hrun.
  - by inversion Hrun.
  - cbn in Hrun. destruct (annotate s k info) as [info'|e] eqn:Hann.
    + destruct (annotate_all s rest) as [r0 rest'] eqn:Hrest. inversion Hrun; subst.
      cbn. rewrite (annotate_again _ _ _ _ Hann). by rewrite (IH _ _ eq_refl).
    + inversion Hrun; subst. cbn. by rewrite Hann.
Qed.

(** X7: listing the devices is idempotent.  A second call of
    [get_available_devices] returns what the first returned (the same dict, or
    the same exception) and leaves the state the first call produced. *)
Theorem get_available_devices_idempotent s :
  let first := Service.get_available_devices s in
  Service.get_available_devices first.2 = (first.1, first.2).
Proof.
  cbn zeta. unfold Service.get_available_devices, Devices.get_available_devices.
  destruct (annotate_all s (device_manager s)) as [r devices'] eqn:Hall.
  cbn [fst snd device_manager with_devices].
  assert (Hs : ∀ l, annotate_all (with_devices devices' s) l = annotate_all s l).
  { induction l as [|[k info] rest IH]; [done|]. cbn. by rewrite IH. }
  assert (Hsame : annotate_all (with_devices devices' s) devices' = (r, devices')).
  { rewrite Hs. by apply (annotate_all_again _ _ _ _ Hall). }
  rewrite Hsame. by destruct r.
Qed.

End CatalogueProperties.

(** ** Availability check and execution *)

Ltac ticks_solve :=
  repeat match goal with
         | H : ticks_only _ _ |- _ =>
             let Hc := fresh "Hc" in
             unfold ticks_only in H; destruct H as [H Hc]; cbn in Hc
         end;
  unfold ticks_only; split; [frame_solve | cbn; congruence].

Section ExecutionProperties.

Variable O : oracle.

Lemma ticks_only_frame s s' : ticks_only s s' → frame s s'.
Proof. by intros [H _]. Qed.

Lemma random_choice_ticks options s :
  wp (random_choice O options) (λ r s', is_ok r = true ∧ ticks_only s s') s.
Proof. unfold random_choice. wp_steps. split; [done | ticks_solve]. Qed.

Ltac wp_choice :=
  eapply wp_mono; [apply random_choice_ticks|];
  let r := fresh "r" in
  let s' := fresh "s" in
  let Hok := fresh "Hok" in
  let Ht := fresh "Ht" in
  intros r s' [Hok Ht]; destruct r as [?|?]; [ | discriminate Hok ]; clear Hok.

Lemma _check_device_availability_ticks device_id s :
  wp (_check_device_availability O device_id) (λ r s', is_ok r = true ∧ ticks_only s s') s.
Proof.
  unfold _check_device_availability.
  repeat first [ wp_step; norm | wp_choice ].
  all: split; [done | ticks_solve].
Qed.

Lemma run_on_device_ticks msg c device_id shots s :
  wp (run_on_device O msg c device_id shots) (λ _ s', ticks_only s s') s.
Proof.
  unfold run_on_device.
  repeat first
    [ wp_step; norm
    | eapply wp_mono; [apply _check_device_availability_ticks|];
      let r := fresh "r" in
      let s' := fresh "s" in
      let Ht := fresh "Ht" in
      intros r s' [_ Ht] ].
  all: ticks_solve.
Qed.

Lemma _execute_on_device_ticks c device_id shots s :
  wp (_execute_on_device O c device_id shots)
    (λ r s', is_ok r = true ∧ ticks_only s s') s.
Proof.
  unfold _execute_on_device. do 2 wp_step.
  eapply wp_mono; [apply run_on_device_ticks|]. intros r s' Ht.
  wp_steps; (split; [done | ticks_solve]).
Qed.

(** X8: the availability check never raises and changes nothing but the
    query counter.  It answers without any random draw for the local simulator
    (available), for a missing session or handle (unavailable) and for a
    configured simulator (available); and a configured processor whose id is
    not one of the four keys of the simulated status table, as is the
    catalogue's own 'rigetti_ankaa3', is always reported available, after four
    draws. *)
Theorem _check_device_availability_answers device_id s :
  (∃ answer s', _check_device_availability O device_id s = (Ok answer, s') ∧
                ticks_only s s') ∧
  (device_id = "local_simulator" →
   _check_device_availability O device_id s =
     (Ok (true, "Local simulator always available"), s)) ∧
  (device_id ≠ "local_simulator" →
   (_aws_session s = false ∨ device_id ∉ _aws_devices s →
    _check_device_availability O device_id s =
      (Ok (false, "AWS session not initialized or device not found"), s)) ∧
   (_aws_session s = true → device_id ∈ _aws_devices s →
    ∀ ty, get_device_info (device_manager s) device_id !! "type" = Some ty →
      (str_equal ty "simulator" || str_equal ty "managed_simulator" = true →
       _check_device_availability O device_id s = (Ok (true, "Simulator device"), s)) ∧
      (str_equal ty "simulator" || str_equal ty "managed_simulator" = false →
       device_id ∉ ["ionq_forte"; "iqm_garnet"; "quera_aquila"; "rigetti_ankaa"] →
       _check_device_availability O device_id s =
         (Ok (true, "Device online and accepting jobs"),
          with_tick (4 + tick s) s)))).
Proof.
  split_and!.
  - destruct (_check_device_availability O device_id s) as [r s'] eqn:Hrun.
    pose proof (wp_run _ _ _ _ _ (_check_device_availability_ticks device_id s) Hrun)
      as [Hok Ht].
    destruct r as [a|e]; [|discriminate]. eauto.
  - intros ->. reflexivity.
  - intros Hnl. split.
    + intros Hmiss. unfold _check_device_availability, bind, get_state.
      rewrite (bool_decide_false _ Hnl).
      destruct Hmiss as [Hs|Hd]; [by rewrite Hs|].
      rewrite (bool_decide_false _ Hd). by rewrite orb_true_r.
    + intros Hs Hd ty Hty. split.
      * intros Hsim. unfold _check_device_availability, bind, get_state, try_except, lift,
          dict_get.
        rewrite (bool_decide_false _ Hnl), Hs, (bool_decide_true _ Hd), Hty. cbn.
        by rewrite Hsim.
      * intros Hsim Hkeys.
        unfold _check_device_availability, bind, get_state, try_except, lift, dict_get,
          random_choice, query, ret.
        rewrite (bool_decide_false _ Hnl), Hs, (bool_decide_true _ Hd), Hty. cbn.
        rewrite Hsim.
        rewrite !not_elem_of_cons in Hkeys. destruct Hkeys as (H1 & H2 & H3 & H4 & _).
        by rewrite !bool_decide_false.
Qed.

(** X9: [_execute_on_device] never raises: it always returns a number and
    changes nothing but the query counter.  On the local
    simulator it returns the first measured outcome read as a binary number
    and, when the run or the conversion fails, the digest-derived number below
    1000. *)
Theorem _execute_on_device_never_raises c device_id shots s :
  (∃ v s', _execute_on_device O c device_id shots s = (Ok v, s') ∧ ticks_only s s') ∧
  (device_id = "local_simulator" →
   _execute_on_device O c device_id shots s =
     (Ok match result_bind (local_run O (tick s) c shots) first_outcome with
         | Ok v => v
         | Raise _ => digest_prefix (md5 O (circuit_str O c)) mod 1000
         end,
      with_tick (S (tick s)) s)).
Proof.
  split.
  - destruct (_execute_on_device O c device_id shots s) as [r s'] eqn:Hrun.
    pose proof (wp_run _ _ _ _ _ (_execute_on_device_ticks c device_id shots s) Hrun)
      as [Hok Ht].
    destruct r as [v|e]; [|discriminate]. eauto.
  - intros ->.
    assert (Hrun : ∀ msg, run_on_device O msg c "local_simulator" shots s =
                     (local_run O (tick s) c shots, with_tick (S (tick s)) s)).
    { intros msg. unfold run_on_device, bind, get_state. cbn beta iota.
      rewrite bool_decide_true by done. unfold query, lift. cbn.
      by destruct (local_run O (tick s) c shots). }
    unfold _execute_on_device, try_except, bind. rewrite Hrun.
    destruct (local_run O (tick s) c shots) as [m|e]; cbn; [|done].
    unfold lift. by destruct (first_outcome m).
Qed.

End ExecutionProperties.

(** X8, witness: the Rigetti processor of the catalogue, with a handle. *)
Lemma _check_device_availability_answers_witness :
  _check_device_availability demo_oracle "rigetti_ankaa3" svc_rigetti =
    (Ok (true, "Device online and accepting jobs"),
     with_tick (4 + tick svc_rigetti) svc_rigetti).
Proof.
  set (s := svc_rigetti).
  apply (proj2 (proj2 (proj2 (_check_device_availability_answers demo_oracle
           "rigetti_ankaa3" s)) ltac:(discriminate)) eq_refl
           ltac:(apply (bool_decide_unpack _); by vm_compute) (VStr "qpu") eq_refl).
  - reflexivity.
  - apply (bool_decide_unpack _). by vm_compute.
Defined.

(** X9, witness. *)
Lemma _execute_on_device_never_raises_witness :
  _execute_on_device demo_oracle bell_circuit "local_simulator" 10 svc0 =
    (Ok match result_bind (local_run demo_oracle (tick svc0) bell_circuit 10) first_outcome with
        | Ok v => v
        | Raise _ => digest_prefix (md5 demo_oracle (circuit_str demo_oracle bell_circuit))
                       mod 1000
        end,
     with_tick (S (tick svc0)) svc0).
Proof.
  apply (proj2 (_execute_on_device_never_raises demo_oracle bell_circuit
                  "local_simulator" 10 svc0)).
  reflexivity.
Defined.


(** ** Bell-state vector and the memo of generated numbers *)

Section BellProperties.

Variable O : oracle.

Lemma probabilities_length m p : probabilities m = Ok p → length p = 4%nat.
Proof.
  unfold probabilities. destruct (total_shots m =? 0); [done|]. by intros [= <-].
Qed.

Lemma _execute_bell_state_on_device_ticks c device_id shots s :
  wp (_execute_bell_state_on_device O c device_id shots)
    (λ r s', (∃ p, r = Ok p ∧ length p = 4%nat) ∧ ticks_only s s') s.
Proof.
  unfold _execute_bell_state_on_device. do 2 wp_step.
  eapply wp_mono; [apply run_on_device_ticks|]. intros r s' Ht.
  wp_steps.
  - split; [|ticks_solve]. eexists; split; [done|]. by eapply probabilities_length.
  - split; [|ticks_solve]. by eexists.
  - split; [|ticks_solve]. by eexists.
Qed.

(** X10: [_create_bell_state_circuit] never raises and always returns a
    vector of exactly four entries, changing nothing but the query counter;
    for a device that does not support Bell states, and for an id without a
    catalogue record carrying a type, the vector is the ideal one
    [0.5, 0, 0, 0.5] and nothing is run. *)
Theorem _create_bell_state_circuit_four device_id s :
  let info := get_device_info (device_manager s) device_id in
  (∃ p s', _create_bell_state_circuit O device_id s = (Ok p, s') ∧
           length p = 4%nat ∧ ticks_only s s') ∧
  (truthy (dict_get_default info "supports_bell_states" (VBool true)) = false ∨
   info !! "type" = None →
   _create_bell_state_circuit O device_id s = (Ok ideal_bell, s)).
Proof.
  intros info. split.
  - destruct (_create_bell_state_circuit O device_id s) as [r s'] eqn:Hrun.
    assert (Hwp : wp (_create_bell_state_circuit O device_id)
                    (λ r s', (∃ p, r = Ok p ∧ length p = 4%nat) ∧ ticks_only s s') s).
    { unfold _create_bell_state_circuit.
      repeat first
        [ wp_step; norm
        | eapply wp_mono; [apply _execute_bell_state_on_device_ticks|];
          let r := fresh "r" in
          let s' := fresh "s" in
          let Ht := fresh "Ht" in
          intros r s' [(? & -> & ?) Ht] ].
      all: split; [by eexists | ticks_solve]. }
    pose proof (wp_run _ _ _ _ _ Hwp Hrun) as [(p & -> & Hp) Ht]. eauto.
  - intros Hcase. unfold _create_bell_state_circuit, bind, get_state. cbn beta iota.
    fold info.
    destruct (truthy (dict_get_default info "supports_bell_states" (VBool true))) eqn:Hb;
      [|done].
    destruct Hcase as [|Hty]; [done|]. cbn [negb].
    unfold try_except, bind, lift, dict_get. by rewrite Hty.
Qed.

End BellProperties.

(** X10, witness: an id that the catalogue does not know. *)
Lemma _create_bell_state_circuit_four_witness :
  _create_bell_state_circuit demo_oracle "unknown_device" svc0 = (Ok ideal_bell, svc0).
Proof.
  apply (proj2 (_create_bell_state_circuit_four demo_oracle "unknown_device" svc0)).
  right. reflexivity.
Defined.

Section Distribution.

Local Open Scope Q_scope.










End Distribution.

(** ** The memo of generated numbers *)

Section MemoProperties.

Variable O : oracle.

Lemma hash_fallback_ticks seed_text s :
  wp (hash_fallback O seed_text) (λ r s', is_ok r = true ∧ ticks_only s s') s.
Proof. unfold hash_fallback. wp_steps. split; [done | ticks_solve]. Qed.

Lemma _ahs_from_seed_ticks device_id seed_text s :
  wp (_ahs_from_seed O device_id seed_text) (λ _ s', ticks_only s s') s.
Proof. unfold _ahs_from_seed. wp_steps; ticks_solve. Qed.

(** X12: a call of the random-number generation that misses the memo.  For
    a gate device with an integer 'max_qubits' it never raises and always
    stores exactly the number it returns under the key, so the hash fallback
    is unreachable there; for a QuEra device it never raises and either stores
    the number it returns or, when the analog run failed, leaves the memo as
    it was.  The catalogue, the job table and the queue are unchanged. *)
Theorem _generate_quantum_random_number_memo device_id seed_text s :
  let key := md5 O (device_id +:+ "_" +:+ seed_text) in
  _circuit_cache s !! key = None →
  can_generate s device_id →
  ∃ v s', _generate_quantum_random_number O device_id seed_text s = (Ok v, s') ∧
          frame s s' ∧
          (_circuit_cache s' = <[key := v]> (_circuit_cache s) ∨
           contains "quera" device_id = true ∧ _circuit_cache s' = _circuit_cache s).
Proof.
  intros key Hmiss Hcan.
  destruct (_generate_quantum_random_number O device_id seed_text s) as [r s'] eqn:Hrun.
  assert (Hwp : wp (_generate_quantum_random_number O device_id seed_text)
            (λ r s', ∃ v, r = Ok v ∧ frame s s' ∧
               (_circuit_cache s' = <[key := v]> (_circuit_cache s) ∨
                contains "quera" device_id = true ∧ _circuit_cache s' = _circuit_cache s)) s).
  { unfold _generate_quantum_random_number. fold key.
    wp_step. wp_step. rewrite Hmiss.
    destruct (contains "quera" device_id) eqn:Hq.
    - wp_step. wp_step.
      eapply wp_mono; [apply _ahs_from_seed_ticks|]. intros r1 s1 Ht.
      destruct r1 as [v|e].
      + unfold cache_store. wp_steps. eexists. split; [done|].
        destruct Ht as [Hf Hc]. split; [frame_solve|]. left. cbn. by rewrite Hc.
      + eapply wp_mono; [apply hash_fallback_ticks|]. intros r2 s2 [Hok Ht2].
        destruct r2 as [v|?]; [|discriminate]. eexists. split; [done|].
        destruct Ht as [Hf Hc], Ht2 as [Hf2 Hc2]. split; [frame_solve|].
        right. split; [done|]. congruence.
    - destruct Hcan as [Hcan|[mq Hmq]]; [congruence|].
      unfold int_field, dict_get. rewrite Hmq. cbn [result_bind as_int].
      wp_step. wp_step. wp_step. wp_step.
      eapply wp_mono; [apply _execute_on_device_ticks|]. intros r1 s1 [Hok Ht].
      destruct r1 as [v|?]; [|discriminate].
      unfold cache_store. wp_steps. eexists. split; [done|].
      destruct Ht as [Hf Hc]. split; [frame_solve|]. left. cbn. by rewrite Hc. }
  pose proof (wp_run _ _ _ _ _ Hwp Hrun) as (v & -> & Hf & Hc). eauto.
Qed.

End MemoProperties.

(** X12, witness: the local simulator on an empty memo. *)
Lemma _generate_quantum_random_number_memo_witness :
  ∃ v s', _generate_quantum_random_number demo_oracle "local_simulator" "seed" svc0 =
            (Ok v, s') ∧
          frame svc0 s' ∧
          (_circuit_cache s' =
             <[md5 demo_oracle ("local_simulator" +:+ "_" +:+ "seed") := v]>
               (_circuit_cache svc0) ∨
           contains "quera" "local_simulator" = true ∧
           _circuit_cache s' = _circuit_cache svc0).
Proof.
  apply (_generate_quantum_random_number_memo demo_oracle "local_simulator" "seed" svc0).
  - reflexivity.
  - right. eexists. reflexivity.
Defined.

(** ** What the entry point and the background task do to the job table *)

Lemma grown_by_refl st : grown_by 0 st st.
Proof. exists []. by rewrite app_nil_r. Qed.

Lemma grown_by_snoc n st0 st st' row :
  grown_by n st0 st → rows st' = rows st ++ [row] → grown_by (S n) st0 st'.
Proof.
  intros (added & Hrows & Hlen) Hrows'. exists (added ++ [row]).
  rewrite Hrows', Hrows, <- app_assoc, length_app. cbn. split; [done | lia].
Qed.

Lemma grown_by_update n st0 st jid s kwargs :
  get_job st0 jid = None → grown_by n st0 st →
  grown_by n st0 (update_job_status st jid s kwargs).
Proof.
  intros Hnone (added & Hrows & Hlen).
  pose proof (update_job_status_unknown st0 jid s kwargs Hnone) as Hsame.
  apply (f_equal rows) in Hsame.
  unfold update_job_status, sql_update in *. cbn [rows] in *.
  eexists. rewrite Hrows, map_app, Hsame. split; [reflexivity|].
  by rewrite length_map.
Qed.

Lemma same_but_refl jid st : same_but jid st st.
Proof. by split. Qed.

Lemma same_but_update jid st0 st s kwargs :
  same_but jid st0 st → same_but jid st0 (update_job_status st jid s kwargs).
Proof.
  intros [Hlen Hrows]. split.
  - by rewrite update_job_status_length.
  - intros i r Hi Hne. apply update_job_status_row_frame; auto.
Qed.

Lemma same_identity_refl r : same_identity r r.
Proof. by unfold same_identity. Qed.

Lemma tracked_start jid row st : get_job st jid = Some row → tracked jid row st.
Proof. intros H. exists row. split; [done | apply same_identity_refl]. Qed.

Lemma tracked_update jid row st s kwargs :
  tracked jid row st → tracked jid row (update_job_status st jid s kwargs).
Proof.
  intros (r & Hr & Hid).
  destruct (get_job_update_status st jid s kwargs r Hr) as (r' & Hr' & _ & _ & Hid').
  exists r'. split; [done | by eapply same_identity_trans].
Qed.

Lemma tracked_final jid row st s kwargs :
  tracked jid row st →
  ∃ r r', get_job (update_job_status st jid s kwargs) jid = Some r' ∧
          r' = apply_set s (set_clauses kwargs) r ∧ status r' = s ∧ same_identity row r'.
Proof.
  intros (r & Hr & Hid).
  destruct (get_job_update_status st jid s kwargs r Hr) as (r' & Hr' & Heq & Hs & Hid').
  exists r, r'. split_and!; [done..|by eapply same_identity_trans].
Qed.

Section TableEffects.

Variable O : oracle.

Lemma process_quantum_signature_grows name response quantum_device s :
  wp (process_quantum_signature O name response quantum_device)
    (λ r s', is_ok r = true ∧
             ∃ n, (n <= 2)%nat ∧ grown_by n (job_manager s) (job_manager s')) s.
Proof.
  unfold process_quantum_signature. do 4 wp_step.
  { wp_step. split; [done|]. exists 0%nat. split; [lia | apply grown_by_refl]. }
  wp_step. eapply wp_mono; [apply create_job_m_cases|].
  intros [lj|e] s1 (_ & _ & _ & Hc).
  2:{ wp_step. split; [done|]. exists 0%nat. split; [lia|]. rewrite Hc. apply grown_by_refl. }
  destruct Hc as (_ & Hlj & row1 & Hid1 & _ & Hrows1).
  assert (Hg1 : grown_by 1 (job_manager s) (job_manager s1))
    by (eapply grown_by_snoc; [apply grown_by_refl | done]).
  wp_step. wp_step. wp_step.
  2:{ wp_step. split; [done|]. exists 1%nat. split; [lia | done]. }
  wp_step. eapply wp_mono; [apply create_job_m_cases|].
  intros [dj|e] s2 (_ & _ & _ & Hc).
  2:{ wp_step. split; [done|]. exists 1%nat. split; [lia|]. by rewrite Hc. }
  destruct Hc as (_ & Hdj1 & row2 & Hid2 & _ & Hrows2).
  assert (Hg2 : grown_by 2 (job_manager s) (job_manager s2))
    by (eapply grown_by_snoc; [exact Hg1 | done]).
  assert (Hdj : get_job (job_manager s) dj = None).
  { rewrite (get_job_appended _ _ _ dj Hrows1) in Hdj1.
    by destruct (get_job (job_manager s) dj). }
  clear Hrows1 Hrows2 Hdj1 Hg1.
  unfold update_job_status_m, create_task.
  repeat first [ wp_step; norm | wp_helper ].
  all: follow_jobs.
  all: split; [done|]; exists 2%nat; split; [lia|].
  all: repeat (apply grown_by_update; [first [exact Hlj | exact Hdj]|]); exact Hg2.
Qed.

(** X13: the entry point never raises (every exception becomes a failure
    reply), and whatever it does to the job table, the rows that were there
    before the call are still there, unchanged and in place, followed by at
    most two new rows. *)
Theorem process_quantum_signature_keeps_rows name response quantum_device s :
  ∃ reply s' added,
    process_quantum_signature O name response quantum_device s = (Ok reply, s') ∧
    rows (job_manager s') = rows (job_manager s) ++ added ∧ (length added <= 2)%nat.
Proof.
  destruct (process_quantum_signature O name response quantum_device s) as [r s'] eqn:Hrun.
  pose proof (wp_run _ _ _ _ _
                (process_quantum_signature_grows name response quantum_device s) Hrun)
    as (Hok & n & Hn & added & Hrows & Hlen).
  destruct r as [reply|e]; [|discriminate].
  exists reply, s', added. split_and!; [done | done | lia].
Qed.

Lemma run_task_terminal t s :
  wp (run_task O t)
    (λ r s', r = Ok tt ∧ same_but (bg_job_id t) (job_manager s) (job_manager s') ∧
       ∀ row, get_job (job_manager s) (bg_job_id t) = Some row →
         ∃ row' stamp, get_job (job_manager s') (bg_job_id t) = Some row' ∧
           same_identity row row' ∧ completed_at row' = SText stamp ∧
           ((status row' = "completed" ∧ ∃ payload, result_data row' = SText payload) ∨
            (status row' = "failed" ∧ ∃ e, error_message row' = SText (exn_str e)))) s.
Proof.
  unfold run_task, _process_quantum_job_for_signature, _simulate_quantum_processing,
    update_job_status_m, _update_signature_with_device_results.
  repeat first [ wp_step; norm | wp_helper ].
  all: follow_jobs.
  all: split; [done|]; split; [repeat apply same_but_update; apply same_but_refl|].
  all: intros row Hrow; apply (tracked_start _ _ _) in Hrow.
  all: match goal with
       | |- context [get_job (update_job_status ?j ?jid ?st ?kw) _] =>
           destruct (tracked_final jid row j st kw) as (rw0 & rw1 & Hget & Heq & Hst & Hid);
             [repeat apply tracked_update; exact Hrow|]
       end.
  all: exists rw1; eexists; split; [exact Hget|]; split; [exact Hid|].
  all: split; [by rewrite Heq|].
  all: first [ left; split; [exact Hst|]; eexists; by rewrite Heq
             | right; split; [exact Hst|]; eexists; by rewrite Heq ].
Qed.

(** X14: the background task never raises.  It changes no row but the one
    of its own job, and when that job exists it ends in a terminal state with
    a completion time: 'completed' with a result payload, or 'failed' with the
    text of the exception as error message.  The identity columns of the row
    are kept. *)
Theorem run_task_ends_terminal t s :
  ∃ s', run_task O t s = (Ok tt, s') ∧
    same_but (bg_job_id t) (job_manager s) (job_manager s') ∧
    ∀ row, get_job (job_manager s) (bg_job_id t) = Some row →
      ∃ row' stamp, get_job (job_manager s') (bg_job_id t) = Some row' ∧
        same_identity row row' ∧ completed_at row' = SText stamp ∧
        ((status row' = "completed" ∧ ∃ payload, result_data row' = SText payload) ∨
         (status row' = "failed" ∧ ∃ e, error_message row' = SText (exn_str e))).
Proof.
  destruct (run_task O t s) as [r s'] eqn:Hrun.
  pose proof (wp_run _ _ _ _ _ (run_task_terminal t s) Hrun) as (-> & Hsame & Hrow).
  eauto.
Qed.

End TableEffects.

(** X14, witness: the queued task of a submitted job. *)
Lemma run_task_ends_terminal_witness :
  ∃ s' row' stamp,
    run_task demo_oracle submitted_task svc_submitted = (Ok tt, s') ∧
    get_job (job_manager s') (bg_job_id submitted_task) = Some row' ∧
    completed_at row' = SText stamp ∧
    (status row' = "completed" ∨ status row' = "failed").
Proof.
  destruct (run_task_ends_terminal demo_oracle submitted_task svc_submitted)
    as (s' & Hrun & _ & Hrow).
  destruct (get_job (job_manager svc_submitted) (bg_job_id submitted_task)) as [row|] eqn:E;
    [|discriminate E].
  destruct (Hrow row eq_refl) as (row' & stamp & Hget & _ & Hstamp & Hst).
  exists s', row', stamp. split_and!; [done..|].
  destruct Hst as [[? _]|[? _]]; auto.
Defined.

(** ** Layout bands and the values of the visual properties *)

Section LayoutProperties.

Local Open Scope Q_scope.

(** The layout depends on the number of cards only through its band. *)
Lemma layout_for_band n :
  layout_for n =
    layout_for (if (n <=? 4)%Z then 4 else if (n <=? 6)%Z then 6
                else if (n <=? 9)%Z then 9 else if (n <=? 12)%Z then 12 else 13).
Proof.
  unfold layout_for, card_dimensions.
  destruct (n <=? 4)%Z; [done|]. destruct (n <=? 6)%Z; [done|].
  destruct (n <=? 9)%Z; [done|]. by destruct (n <=? 12)%Z.
Qed.

(** X15: the footprint of a card never grows with the number of cards: for
    [n <= m] the effective width, the effective height and the spacing of the
    layout for [m] cards are at most those of the layout for [n] cards. *)
Theorem layout_for_antitone n m :
  (n <= m)%Z →
  effective_width_pct (layout_for m) <= effective_width_pct (layout_for n) ∧
  effective_height_pct (layout_for m) <= effective_height_pct (layout_for n) ∧
  spacing_pct (layout_for m) <= spacing_pct (layout_for n).
Proof.
  intros Hnm. rewrite (layout_for_band n), (layout_for_band m).
  repeat match goal with
         | |- context [(?a <=? ?b)%Z] =>
             let E := fresh "E" in
             destruct (Z.leb_spec a b) as [E|E]
         end;
    try lia; split_and!; by vm_compute.
Qed.

(** X15, witness: four cards against ten. *)
Lemma layout_for_antitone_witness :
  effective_width_pct (layout_for 10) <= effective_width_pct (layout_for 4) ∧
  effective_height_pct (layout_for 10) <= effective_height_pct (layout_for 4) ∧
  spacing_pct (layout_for 10) <= spacing_pct (layout_for 4).
Proof. apply (layout_for_antitone 4 10). lia. Defined.

End LayoutProperties.

Section VisualValues.

Local Open Scope Q_scope.

Variable O : oracle.
Variable prng : Z → nat → Q.
Variables cos sin : Q → Q.



End VisualValues.


(** ** Reading an analog result as a number *)

Section SpinConfigurations.

Lemma bits_value_spin_bits cfg acc :
  0 <= acc →
  ∃ v, bits_value acc (spin_bits cfg) = Ok v ∧
       acc * 2 ^ Z.of_nat (String.length cfg) <= v < (acc + 1) * 2 ^ Z.of_nat (String.length cfg).
Proof.
  revert acc. induction cfg as [|c rest IH]; intros acc Hacc.
  - exists acc. cbn. split; [done | lia].
  - cbn [spin_bits bits_value String.length].
    rewrite Nat2Z.inj_succ, Z.pow_succ_r by lia.
    destruct (Ascii.eqb c "r").
    + change (Ascii.eqb "1" "0") with false. change (Ascii.eqb "1" "1") with true. cbn iota.
      destruct (IH (2 * acc + 1)) as (v & Hv & Hb); [lia|]. exists v. split; [done | nia].
    + change (Ascii.eqb "0" "0") with true. cbn iota.
      destruct (IH (2 * acc)) as (v & Hv & Hb); [lia|]. exists v. split; [done | nia].
Qed.

Lemma _spin_config_to_int_total cfg :
  ∃ v, _spin_config_to_int cfg = Ok v ∧ 0 <= v < 2 ^ Z.of_nat (String.length cfg).
Proof.
  destruct (bits_value_spin_bits cfg 0) as (v & Hv & Hb); [lia|].
  unfold _spin_config_to_int, int_base2.
  destruct cfg as [|c rest].
  - exists 0. cbn. split; [done | lia].
  - exists v. cbn [spin_bits] in *. split; [done | lia].
Qed.

Lemma top_config_max best m :
  ∃ n, (top_config best m, n) ∈ best :: m ∧ best.2 <= n ∧ ∀ kv, kv ∈ m → kv.2 <= n.
Proof.
  revert best. induction m as [|kv rest IH]; intros [k n]; cbn [top_config fst snd].
  - exists n. split_and!; [constructor | lia |]. intros kv Hkv. by apply elem_of_nil in Hkv.
  - destruct (Z.ltb_spec n kv.2) as [Hlt|Hge].
    + destruct (IH kv) as (n' & Hin & Hle & Hall). exists n'. split_and!.
      * by constructor 2.
      * lia.
      * intros kv' Hkv'. apply elem_of_cons in Hkv' as [->|Hkv']; [done | by apply Hall].
    + destruct (IH (k, n)) as (n' & Hin & Hle & Hall). cbn [snd] in Hle.
      exists n'. split_and!.
      * apply elem_of_cons in Hin as [Hin|Hin]; [rewrite Hin; constructor|].
        constructor 2. by constructor 2.
      * done.
      * intros kv' Hkv'. apply elem_of_cons in Hkv' as [->|Hkv']; [lia | by apply Hall].
Qed.

(** X17: reading the counts of an analog run never fails.  A spin
    configuration of [k] sites reads as a number in [0, 2^k); no counts give
    0; otherwise the number is read off a configuration that occurs in the
    counts with a count no other configuration exceeds. *)
Theorem _extract_counts_to_int_total m :
  (∀ cfg, ∃ v, _spin_config_to_int cfg = Ok v ∧ 0 <= v < 2 ^ Z.of_nat (String.length cfg)) ∧
  _extract_counts_to_int [] = Ok 0 ∧
  (m ≠ [] →
   ∃ top n v, (top, n) ∈ m ∧ (∀ kv, kv ∈ m → kv.2 <= n) ∧
              _spin_config_to_int top = Ok v ∧ _extract_counts_to_int m = Ok v).
Proof.
  split_and!; [apply _spin_config_to_int_total | done |].
  intros Hm. destruct m as [|kv rest]; [done|].
  destruct (top_config_max kv rest) as (n & Hin & Hle & Hall).
  destruct (_spin_config_to_int_total (top_config kv rest)) as (v & Hv & _).
  exists (top_config kv rest), n, v. split_and!; [done | | done | done].
  intros kv' Hkv'. apply elem_of_cons in Hkv' as [->|Hkv']; [done | by apply Hall].
Qed.

(** X17, witness: three configurations, the second the most frequent. *)
Lemma _extract_counts_to_int_total_witness :
  ∃ top n v, (top, n) ∈ [("gggg", 2); ("grrg", 5); ("rrrr", 3)] ∧
             (∀ kv, kv ∈ [("gggg", 2); ("grrg", 5); ("rrrr", 3)] → kv.2 <= n) ∧
             _spin_config_to_int top = Ok v ∧
             _extract_counts_to_int [("gggg", 2); ("grrg", 5); ("rrrr", 3)] = Ok v.
Proof.
  apply (proj2 (proj2 (_extract_counts_to_int_total [("gggg", 2); ("grrg", 5); ("rrrr", 3)]))).
  discriminate.
Defined.

End SpinConfigurations.

(** ** The toy lattice key *)

Section ToyKey.

Import ToyLWE.

Lemma traverse_ok {A B} (f : A → result B) (g : A → B) l :
  (∀ x, x ∈ l → f x = Ok (g x)) → traverse f l = Ok (map g l).
Proof.
  induction l as [|x rest IH]; intros Hf; cbn; [done|].
  rewrite (Hf x) by constructor. rewrite IH; [done|].
  intros y Hy. apply Hf. by constructor 2.
Qed.

Lemma traverse_raise {A B} (f : A → result B) e x rest :
  f x = Raise e → traverse f (x :: rest) = Raise e.
Proof. intros Hx. cbn. by rewrite Hx. Qed.

(** X18: the public vector of the toy key.  For a modulus [q > 0] the two
    helpers never raise and their composition [_vec_add(_mat_vec(A, s, q), e, q)]
    has, at every index that both [A] and [e] reach, the entry
    [(<a_i, s> + e_i) mod q], which lies in [0, q); its length is the shorter
    of the two.  For [q = 0] and a non-empty matrix the first reduction raises
    ZeroDivisionError. *)
Theorem _vec_add_mat_vec A s e q :
  (0 < q →
   ∃ u b, _mat_vec A s q = Ok u ∧ _vec_add u e q = Ok b ∧
          length u = length A ∧ length b = Nat.min (length A) (length e) ∧
          ∀ i ai ei, A !! i = Some ai → e !! i = Some ei →
            b !! i = Some ((dot ai s + ei) mod q) ∧ 0 <= (dot ai s + ei) mod q < q) ∧
  (q = 0 → A ≠ [] → _mat_vec A s q = Raise ZeroDivisionError).
Proof.
  split.
  - intros Hq.
    assert (Hmod : ∀ x, py_mod x q = Ok (x mod q)).
    { intros x. unfold py_mod. destruct (Z.eqb_spec q 0); [lia | done]. }
    exists (map (λ ai, dot ai s mod q) A),
           (map (λ xy, (xy.1 + xy.2) mod q) (zip (map (λ ai, dot ai s mod q) A) e)).
    split_and!.
    + unfold _mat_vec. apply traverse_ok. intros. apply Hmod.
    + unfold _vec_add. apply traverse_ok. intros. apply Hmod.
    + by rewrite length_map.
    + by rewrite length_map, length_zip, length_map.
    + intros i ai ei Hai Hei. split; [|by apply Z.mod_pos_bound].
      rewrite list_lookup_fmap.
      assert (Hz : zip (map (λ ai, dot ai s mod q) A) e !! i = Some (dot ai s mod q, ei)).
      { apply lookup_zip_with_Some. eexists _, _. split_and!; [done | | done].
        change map with (@fmap list _). by rewrite list_lookup_fmap, Hai. }
      rewrite Hz. cbn. by rewrite Zplus_mod_idemp_l.
  - intros -> HA. destruct A as [|ai rest]; [done|]. unfold _mat_vec.
    by apply traverse_raise.
Qed.

(** X18, witness: a 2 x 2 matrix modulo 7. *)
Lemma _vec_add_mat_vec_witness :
  ∃ u b, _mat_vec [[1; 2]; [3; 4]] [5; 6] 7 = Ok u ∧ _vec_add u [1; -1] 7 = Ok b ∧
         length u = 2%nat ∧ length b = 2%nat ∧
         ∀ i ai ei, [[1; 2]; [3; 4]] !! i = Some ai → [1; -1] !! i = Some ei →
           b !! i = Some ((dot ai [5; 6] + ei) mod 7) ∧ 0 <= (dot ai [5; 6] + ei) mod 7 < 7.
Proof.
  apply (proj1 (_vec_add_mat_vec [[1; 2]; [3; 4]] [5; 6] [1; -1] 7)). lia.
Defined.

Section Matrix.

Variable shake256 : list Z → nat → list Z.

Lemma expand_row_entries seed q k counter :
  q ≠ 0 → 0 <= counter → counter + Z.of_nat k <= 2 ^ 32 →
  expand_row shake256 seed q k counter =
    Ok (map (λ j, block_value shake256 seed q (counter + Z.of_nat j)) (seq 0 k), counter + Z.of_nat k).
Proof.
  intros Hq. revert counter. induction k as [|k IH]; intros counter H0 Hle.
  - cbn. by rewrite Z.add_0_r.
  - cbn [expand_row]. unfold _int_to_be, py_mod.
    destruct (Z.ltb_spec counter 0); [lia|].
    destruct (Z.leb_spec (256 ^ Z.of_nat 4) counter) as [Hbig|_].
    { change (256 ^ Z.of_nat 4) with (2 ^ 32) in Hbig. lia. }
    destruct (Z.eqb_spec q 0); [done|].
    rewrite IH by lia. cbn [seq map]. rewrite Z.add_0_r. f_equal. f_equal.
    + f_equal. rewrite <- seq_shift, map_map. apply map_ext. intros j. f_equal. lia.
    + lia.
Qed.

Lemma expand_rows_entries seed q n k counter :
  q ≠ 0 → 0 <= counter → counter + Z.of_nat k * Z.of_nat n <= 2 ^ 32 →
  expand_rows shake256 seed q n k counter =
    Ok (map (λ i, map (λ j, block_value shake256 seed q (counter + Z.of_nat i * Z.of_nat n + Z.of_nat j))
                    (seq 0 n)) (seq 0 k)).
Proof.
  intros Hq. revert counter. induction k as [|k IH]; intros counter H0 Hle; [done|].
  cbn [expand_rows]. rewrite expand_row_entries by nia.
  rewrite IH by nia. cbn [seq map]. f_equal. f_equal.
  - apply map_ext. intros j. f_equal. lia.
  - rewrite <- seq_shift, map_map. apply map_ext. intros i.
    apply map_ext. intros j. f_equal. lia.
Qed.

(** X19: the matrix expanded from a seed.  For a modulus other than zero
    and at most 2^32 entries the expansion succeeds with exactly [m] rows of
    [n] entries each, the entry in row [i] and column [j] being derived from
    the counter value [i * n + j] alone: the two-byte digest of the seed
    followed by the four-byte counter, reduced modulo [q]; for [q > 0] every
    entry lies in [0, q). *)
Theorem _prng_matrix_from_seed_entries seed q m n :
  q ≠ 0 → Z.of_nat (Z.to_nat m) * Z.of_nat (Z.to_nat n) <= 2 ^ 32 →
  ∃ A, _prng_matrix_from_seed shake256 seed q m n = Ok A ∧
       length A = Z.to_nat m ∧
       (∀ i row, A !! i = Some row →
          length row = Z.to_nat n ∧
          ∀ j x, row !! j = Some x →
            x = from_be (shake256
                  (seed ++ be_bytes 4 (Z.of_nat i * Z.of_nat (Z.to_nat n) + Z.of_nat j)) 2)
                mod q ∧
            (0 < q → 0 <= x < q)).
Proof.
  intros Hq Hsize. unfold _prng_matrix_from_seed.
  rewrite expand_rows_entries by lia. eexists. split; [reflexivity|].
  split; [by rewrite length_map, length_seq|].
  intros i row Hrow. change map with (@fmap list _) in Hrow.
  rewrite list_lookup_fmap in Hrow.
  destruct (seq 0 (Z.to_nat m) !! i) as [i'|] eqn:Hi; [|done].
  apply lookup_seq in Hi as [-> _]. cbn in Hrow. injection Hrow as <-.
  split; [by rewrite length_map, length_seq|].
  intros j x Hx. change map with (@fmap list _) in Hx.
  rewrite list_lookup_fmap in Hx.
  destruct (seq 0 (Z.to_nat n) !! j) as [j'|] eqn:Hj; [|done].
  apply lookup_seq in Hj as [-> _]. cbn in Hx. injection Hx as <-.
  unfold block_value. split; [done|]. intros. by apply Z.mod_pos_bound.
Qed.

End Matrix.

(** X19, witness: a 2 x 3 matrix modulo 12289 from a constant digest. *)
Lemma _prng_matrix_from_seed_entries_witness :
  ∃ A, _prng_matrix_from_seed (λ _ _, [1; 2]) [7] 12289 2 3 = Ok A ∧ length A = 2%nat.
Proof.
  destruct (_prng_matrix_from_seed_entries (λ _ _, [1; 2]) [7] 12289 2 3)
    as (A & HA & Hlen & _); [discriminate | by vm_compute |].
  exists A. split; [done | exact Hlen].
Defined.

End ToyKey.

(** ** Big-endian encoding of the counter *)

Section BigEndian.

Import ToyLWE.

Lemma from_be_snoc l b : from_be (l ++ [b]) = 256 * from_be l + b.
Proof. unfold from_be. by rewrite fold_left_app. Qed.

Lemma be_bytes_spec len i :
  length (be_bytes len i) = len ∧
  Forall (λ b, 0 <= b < 256) (be_bytes len i) ∧
  from_be (be_bytes len i) = i mod 256 ^ Z.of_nat len.
Proof.
  revert i. induction len as [|k IH]; intros i.
  - cbn. split_and!; [done | constructor |]. by rewrite Z.mod_1_r.
  - destruct (IH (i / 256)) as (Hlen & Hall & Hval). cbn [be_bytes]. split_and!.
    + rewrite length_app, Hlen. cbn. lia.
    + apply Forall_app. split; [done|]. constructor; [|constructor].
      apply Z.mod_pos_bound. lia.
    + rewrite from_be_snoc, Hval, Nat2Z.inj_succ, Z.pow_succ_r by lia.
      rewrite (Z.rem_mul_r i 256 (256 ^ Z.of_nat k)) by lia. lia.
Qed.

(** X20: [_int_to_be] and [int.from_bytes(..., 'big')] are inverse on the
    numbers that fit: for [0 <= i < 256^length] the encoding succeeds with
    exactly [length] bytes, each in [0, 256), and decodes back to [i]; a
    negative number and a number that does not fit raise. *)
Theorem _int_to_be_round_trip i len :
  (0 <= i < 256 ^ Z.of_nat len →
   ∃ bytes, _int_to_be i len = Ok bytes ∧ length bytes = len ∧
            Forall (λ b, 0 <= b < 256) bytes ∧ from_be bytes = i) ∧
  (i < 0 ∨ 256 ^ Z.of_nat len <= i → is_ok (_int_to_be i len) = false).
Proof.
  unfold _int_to_be. split.
  - intros [H0 Hfit].
    destruct (Z.ltb_spec i 0); [lia|].
    destruct (Z.leb_spec (256 ^ Z.of_nat len) i); [lia|].
    destruct (be_bytes_spec len i) as (Hlen & Hall & Hval).
    eexists. split_and!; [done..|]. rewrite Hval. apply Z.mod_small. lia.
  - intros Hout.
    destruct (Z.ltb_spec i 0); [done|].
    destruct (Z.leb_spec (256 ^ Z.of_nat len) i); [done | lia].
Qed.

(** X20, witness: the counter 258 on four bytes. *)
Lemma _int_to_be_round_trip_witness :
  ∃ bytes, _int_to_be 258 4 = Ok bytes ∧ length bytes = 4%nat ∧
           Forall (λ b, 0 <= b < 256) bytes ∧ from_be bytes = 258.
Proof.
  apply (proj1 (_int_to_be_round_trip 258 4)). by vm_compute.
Defined.

End BigEndian.

(** ** Status breakdown by device *)

Section DeviceBreakdown.

Import JobReports.

Lemma group_total_cons p d g gs :
  group_total p d (g :: gs) =
  (if bool_decide (g.1.1 = d) && p g.1.2 then g.2 else 0) + group_total p d gs.
Proof. done. Qed.

Lemma group_total_perm p d gs gs' : gs ≡ₚ gs' → group_total p d gs = group_total p d gs'.
Proof.
  induction 1 as [|g l l' _ IH|g g' l|l l' l'' _ IH1 _ IH2].
  - done.
  - rewrite !group_total_cons. lia.
  - rewrite !group_total_cons. lia.
  - congruence.
Qed.

Lemma count_rows_cons p r l :
  count_rows p (r :: l) = (if p r then 1 else 0) + count_rows p l.
Proof. unfold count_rows. cbn. destruct (p r); cbn [length]; lia. Qed.

Lemma count_rows_nonneg p l : 0 <= count_rows p l.
Proof. unfold count_rows. lia. Qed.

(** The groups built over the keys [ks], for the rows [rws]. *)
Lemma group_total_nil p d ks :
  group_total p d
    (map (λ k, (k.1, k.2, count_rows (λ r, bool_decide (group_key r = k)) [])) ks) = 0.
Proof.
  induction ks as [|k ks IH]; [done|]. cbn [map]. rewrite group_total_cons, IH. cbn.
  by destruct (bool_decide (k.1 = d) && p k.2).
Qed.

Lemma group_total_row_absent p d ks r rws :
  group_key r ∉ ks →
  group_total p d
    (map (λ k, (k.1, k.2, count_rows (λ r, bool_decide (group_key r = k)) (r :: rws))) ks) =
  group_total p d
    (map (λ k, (k.1, k.2, count_rows (λ r, bool_decide (group_key r = k)) rws)) ks).
Proof.
  induction ks as [|k ks IH]; [done|]. rewrite not_elem_of_cons. intros [Hne Hks].
  cbn [map]. rewrite !group_total_cons, IH by done. cbn [fst snd].
  rewrite count_rows_cons, (bool_decide_false (group_key r = k)) by done. done.
Qed.

Lemma group_total_row_present p d ks r rws :
  NoDup ks → group_key r ∈ ks →
  group_total p d
    (map (λ k, (k.1, k.2, count_rows (λ r, bool_decide (group_key r = k)) (r :: rws))) ks) =
  (if bool_decide (device_id r = d) && p (status r) then 1 else 0) +
  group_total p d
    (map (λ k, (k.1, k.2, count_rows (λ r, bool_decide (group_key r = k)) rws)) ks).
Proof.
  induction ks as [|k ks IH]; intros Hnd Hin; [by apply elem_of_nil in Hin|].
  apply NoDup_cons in Hnd as [Hk Hnd]. cbn [map]. rewrite !group_total_cons. cbn [fst snd].
  rewrite count_rows_cons.
  destruct (decide (group_key r = k)) as [Heq|Hne].
  - rewrite (bool_decide_true (group_key r = k)) by done. subst k.
    rewrite group_total_row_absent by done. cbn [group_key fst snd].
    destruct (bool_decide (device_id r = d) && p (status r)); lia.
  - rewrite (bool_decide_false (group_key r = k)) by done.
    apply elem_of_cons in Hin as [Hin|Hin]; [done|]. rewrite IH by done.
    destruct (bool_decide (k.1 = d) && p k.2); lia.
Qed.

Lemma group_total_keys p d ks rws :
  NoDup ks → (∀ r, r ∈ rws → group_key r ∈ ks) →
  group_total p d
    (map (λ k, (k.1, k.2, count_rows (λ r, bool_decide (group_key r = k)) rws)) ks) =
  count_rows (λ r, bool_decide (device_id r = d) && p (status r)) rws.
Proof.
  intros Hnd. induction rws as [|r rws IH]; intros Hall.
  - apply group_total_nil.
  - rewrite group_total_row_present; [|done|apply Hall; constructor].
    rewrite count_rows_cons, IH; [done|]. intros r' Hr'. apply Hall. by constructor 2.
Qed.

Lemma group_total_sql p d rws :
  group_total p d (sql_group_count rws) =
  count_rows (λ r, bool_decide (device_id r = d) && p (status r)) rws.
Proof.
  unfold sql_group_count. apply group_total_keys; [apply NoDup_remove_dups|].
  intros r Hr. apply elem_of_remove_dups, list_elem_of_fmap. eauto.
Qed.

Lemma sql_group_count_devices d rws :
  d ∈ (sql_group_count rws).*1.*1 ↔ d ∈ device_id <$> rws.
Proof.
  unfold sql_group_count. rewrite !list_elem_of_fmap. split.
  - intros (k & -> & Hk). apply list_elem_of_fmap in Hk as (g & -> & Hg).
    change map with (@fmap list _) in Hg.
    apply list_elem_of_fmap in Hg as (k & -> & Hk). cbn.
    apply elem_of_remove_dups, list_elem_of_fmap in Hk as (r & -> & Hr). eauto.
  - intros (r & -> & Hr). exists (group_key r). split; [done|].
    apply list_elem_of_fmap.
    exists (device_id r, status r,
            count_rows (λ r', bool_decide (group_key r' = group_key r)) rws).
    split; [done|]. change map with (@fmap list _). apply list_elem_of_fmap.
    exists (group_key r). split; [done|].
    apply elem_of_remove_dups, list_elem_of_fmap. eauto.
Qed.

Lemma status_class_exclusive s :
  (is_active s = true → bool_decide (s = "completed") = false ∧
                        bool_decide (s = "failed") = false) ∧
  (bool_decide (s = "completed") = true → bool_decide (s = "failed") = false).
Proof.
  split.
  - intros Hact. split; apply bool_decide_eq_false; intros ->; by vm_compute in Hact.
  - intros Hc. apply bool_decide_eq_true in Hc as ->. done.
Qed.

Lemma tally_fold_absent gs acc d :
  acc !! d = None → d ∉ gs.*1.*1 → fold_left tally_step gs acc !! d = None.
Proof.
  revert acc. induction gs as [|[[d' s] c] gs IH]; intros acc Hacc Hd; [done|].
  cbn [fmap list_fmap fst] in Hd. apply not_elem_of_cons in Hd as [Hne Hd].
  cbn [fold_left]. apply IH; [|done]. unfold tally_step.
  by rewrite lookup_insert_ne.
Qed.

Lemma tally_fold_present gs acc d :
  is_Some (acc !! d) ∨ d ∈ gs.*1.*1 →
  fold_left tally_step gs acc !! d =
    Some (mk_breakdown
            (dev_active (default (mk_breakdown 0 0 0) (acc !! d)) + group_total is_active d gs)
            (dev_completed (default (mk_breakdown 0 0 0) (acc !! d)) +
             group_total (λ s, bool_decide (s = "completed")) d gs)
            (dev_failed (default (mk_breakdown 0 0 0) (acc !! d)) +
             group_total (λ s, bool_decide (s = "failed")) d gs)).
Proof.
  revert acc. induction gs as [|[[d' s] c] gs IH]; intros acc Hsome.
  - destruct Hsome as [[e He]|Hin]; [|by apply elem_of_nil in Hin].
    cbn. rewrite He. cbn. destruct e. cbn. f_equal; f_equal; lia.
  - cbn [fold_left]. rewrite !group_total_cons. cbn [fst snd].
    destruct (decide (d' = d)) as [->|Hne].
    + rewrite IH; [|left; unfold tally_step; rewrite lookup_insert_eq; eauto].
      unfold tally_step. rewrite lookup_insert_eq. cbn [default].
      rewrite (bool_decide_true (d = d)) by done. cbn [andb].
      destruct (status_class_exclusive s) as [Hact Hdone].
      destruct (is_active s) eqn:Ea.
      * destruct (Hact eq_refl) as [-> ->]. cbn. f_equal; f_equal; lia.
      * destruct (bool_decide (s = "completed")) eqn:Ec.
        -- rewrite (Hdone eq_refl). cbn. f_equal; f_equal; lia.
        -- destruct (bool_decide (s = "failed")); cbn.
           ++ f_equal; f_equal; lia.
           ++ destruct (default _ (acc !! d)). cbn. f_equal; f_equal; lia.
    + rewrite IH.
      * unfold tally_step. rewrite lookup_insert_ne by done.
        rewrite (bool_decide_false (d' = d)) by done. by cbn [andb].
      * destruct Hsome as [Hs|Hin].
        -- left. unfold tally_step. by rewrite lookup_insert_ne.
        -- right. cbn [fmap list_fmap fst] in Hin.
           by apply elem_of_cons in Hin as [?|?].
Qed.

(** X21: [get_job_status_by_device] counts each device's jobs by class.  In
    whatever order the database returns the groups, the dict has an entry
    exactly for the devices that occur in the table, and the entry of a device
    holds the number of its jobs that are 'created', 'submitted' or 'running',
    the number that are 'completed' and the number that are 'failed'; the
    three add up to at most the number of the device's jobs. *)
Theorem get_job_status_by_device_counts st groups d :
  groups ≡ₚ sql_group_count (rows st) →
  let of_class p := count_rows (λ r, bool_decide (device_id r = d) && p (status r)) (rows st) in
  tally groups = get_job_status_by_device st ∧
  (d ∉ device_id <$> rows st → get_job_status_by_device st !! d = None) ∧
  (d ∈ device_id <$> rows st →
   get_job_status_by_device st !! d =
     Some (mk_breakdown (of_class is_active)
             (of_class (λ s, bool_decide (s = "completed")))
             (of_class (λ s, bool_decide (s = "failed")))) ∧
   of_class is_active + of_class (λ s, bool_decide (s = "completed")) +
     of_class (λ s, bool_decide (s = "failed")) <= of_class (λ _, true)).
Proof.
  intros Hperm of_class.
  assert (Hnone : ∀ gs d', gs ≡ₚ sql_group_count (rows st) →
            d' ∉ device_id <$> rows st → tally gs !! d' = None).
  { intros gs d' Hgs Hd'. apply tally_fold_absent; [done|].
    rewrite Hgs. by rewrite sql_group_count_devices. }
  assert (Hsome : ∀ gs d', gs ≡ₚ sql_group_count (rows st) →
            d' ∈ device_id <$> rows st →
            tally gs !! d' =
              Some (mk_breakdown
                (count_rows (λ r, bool_decide (device_id r = d') && is_active (status r))
                   (rows st))
                (count_rows (λ r, bool_decide (device_id r = d') &&
                                  bool_decide (status r = "completed")) (rows st))
                (count_rows (λ r, bool_decide (device_id r = d') &&
                                  bool_decide (status r = "failed")) (rows st)))).
  { intros gs d' Hgs Hd'. unfold tally. rewrite tally_fold_present.
    - rewrite lookup_empty. cbn [default dev_active dev_completed dev_failed].
      rewrite !(group_total_perm _ _ _ _ Hgs), !group_total_sql. f_equal.
    - right. rewrite Hgs. by apply sql_group_count_devices. }
  split_and!.
  - apply map_eq. intros d'. unfold get_job_status_by_device.
    destruct (decide (d' ∈ device_id <$> rows st)) as [Hin|Hout].
    + by rewrite !Hsome.
    + by rewrite !Hnone.
  - intros Hout. by apply Hnone.
  - intros Hin. split; [by apply Hsome|].
    unfold of_class. clear. induction (rows st) as [|r l IH]; [done|].
    rewrite !count_rows_cons.
    destruct (status_class_exclusive (status r)) as [Hact Hdone].
    destruct (bool_decide (device_id r = d)); cbn [andb]; [|lia].
    destruct (is_active (status r)) eqn:Ea.
    + destruct (Hact eq_refl) as [-> ->]. lia.
    + destruct (bool_decide (status r = "completed")) eqn:Ec.
      * rewrite (Hdone eq_refl). lia.
      * destruct (bool_decide (status r = "failed")); lia.
Qed.

End DeviceBreakdown.

(** X21, witness: the simulator of the table with a running job. *)
Lemma get_job_status_by_device_counts_witness :
  JobReports.get_job_status_by_device running_store !! device_id running_row =
    Some (JobReports.mk_breakdown
            (JobReports.count_rows
               (λ r, bool_decide (device_id r = device_id running_row) &&
                     is_active (status r)) (rows running_store))
            (JobReports.count_rows
               (λ r, bool_decide (device_id r = device_id running_row) &&
                     bool_decide (status r = "completed")) (rows running_store))
            (JobReports.count_rows
               (λ r, bool_decide (device_id r = device_id running_row) &&
                     bool_decide (status r = "failed")) (rows running_store))).
Proof.
  apply (proj2 (proj2 (get_job_status_by_device_counts running_store
                         (JobReports.sql_group_count (rows running_store))
                         (device_id running_row) (reflexivity _)))).
  apply (bool_decide_unpack _). by vm_compute.
Defined.
